(** * generate_profiles.py: merging template fragments into profile.json

    A shallow embedding of [scripts/generate_profiles.py] and the proofs of
    the properties its specification states.

    Conventions of the model.
    - A Python [str] is a Rocq [string], character by character; [<] on
      [str] is the lexicographic order on character codes
      ([String.ltb]).  Characters that do not fit one [ascii] are outside
      the model.
    - The value [json.load] returns is a [json] tree.  JSON numbers are
      integers ([JInt]); reals are outside the model.  A [dict] is the
      list of its items in insertion order.
    - An exception is a value of [exn]; code that can raise returns a
      [result].
    - [print] appends one [line] to the console output; the lines keep
      the data that the source formats into text. *)

From Stdlib Require Import List String Ascii NArith ZArith Bool Arith Lia.
From Stdlib Require Import Permutation Sorted DecimalString.
Import ListNotations.
Local Open Scope string_scope.
Local Open Scope list_scope.

(** ** Exceptions and results *)

(** The exceptions (subclasses of [Exception]) the script can meet.
    [JSONDecodeError] is what [json.load] raises on malformed text;
    [OtherException] stands for what [open] and the decoding of the
    file can raise besides. *)
Inductive exn : Type :=
| TypeError
| AttributeError
| KeyError
| JSONDecodeError (msg : string)
| OtherException (msg : string).

Inductive result (A : Type) : Type :=
| Ok (a : A)
| Raise (e : exn).
Arguments Ok {A} a.
Arguments Raise {A} e.

Definition bind {A B : Type} (r : result A) (k : A -> result B) : result B :=
  match r with
  | Ok a => k a
  | Raise e => Raise e
  end.

Notation "x <- r ;; k" := (bind r (fun x => k))
  (at level 61, r at next level, right associativity).

Fixpoint mapM {A B : Type} (f : A -> result B) (l : list A) : result (list B) :=
  match l with
  | [] => Ok []
  | x :: l' => y <- f x ;; ys <- mapM f l' ;; Ok (y :: ys)
  end.

(** ** JSON values *)

#[warnings="-register-all"]
Inductive json : Type :=
| JNull
| JBool (b : bool)
| JInt (n : Z)
| JStr (s : string)
| JArr (xs : list json)
| JObj (items : list (string * json)).

Definition dict := list (string * json).

(** [d.get(k)] as an option, [key in d], [d.get(k, default)]. *)
Fixpoint dict_get (k : string) (d : dict) : option json :=
  match d with
  | [] => None
  | (k', v) :: d' => if String.eqb k k' then Some v else dict_get k d'
  end.

Definition dict_mem (k : string) (d : dict) : bool :=
  match dict_get k d with Some _ => true | None => false end.

Definition dict_get_default (k : string) (default : json) (d : dict) : json :=
  match dict_get k d with Some v => v | None => default end.

(** Python's [==] on the values [json.load] produces.  [bool] is a
    subtype of [int]; two dicts are equal when they have the same keys
    with equal values, whatever the order. *)
Fixpoint py_eq (a b : json) {struct a} : bool :=
  match a, b with
  | JNull, JNull => true
  | JBool x, JBool y => Bool.eqb x y
  | JBool x, JInt n => Z.eqb (Z.b2z x) n
  | JInt n, JBool y => Z.eqb n (Z.b2z y)
  | JInt n, JInt m => Z.eqb n m
  | JStr s, JStr t => String.eqb s t
  | JArr xs, JArr ys =>
      (fix all2 (xs ys : list json) : bool :=
         match xs, ys with
         | [], [] => true
         | x :: xs', y :: ys' => py_eq x y && all2 xs' ys'
         | _, _ => false
         end) xs ys
  | JObj d1, JObj d2 =>
      Nat.eqb (List.length d1) (List.length d2) &&
      (fix all (d : dict) : bool :=
         match d with
         | [] => true
         | (k, v) :: d' =>
             match dict_get k d2 with
             | Some w => py_eq v w
             | None => false
             end && all d'
         end) d1
  | _, _ => false
  end.

(** Python's [<]: numbers with numbers, strings with strings, lists with
    lists (at the first position where they differ); every other pair
    raises [TypeError]. *)
Fixpoint py_lt (a b : json) {struct a} : result bool :=
  match a, b with
  | JBool x, JBool y => Ok (Z.ltb (Z.b2z x) (Z.b2z y))
  | JBool x, JInt n => Ok (Z.ltb (Z.b2z x) n)
  | JInt n, JBool y => Ok (Z.ltb n (Z.b2z y))
  | JInt n, JInt m => Ok (Z.ltb n m)
  | JStr s, JStr t => Ok (String.ltb s t)
  | JArr xs, JArr ys =>
      (fix lex (xs ys : list json) : result bool :=
         match xs, ys with
         | [], [] => Ok false
         | [], _ :: _ => Ok true
         | _ :: _, [] => Ok false
         | x :: xs', y :: ys' => if py_eq x y then lex xs' ys' else py_lt x y
         end) xs ys
  | _, _ => Raise TypeError
  end.

(** [<] on the pairs [(cat_index, id)] that [sort_key] returns: tuples
    compare at the first component where they differ by [==]. *)
Definition key_lt (k1 k2 : nat * json) : result bool :=
  if negb (Nat.eqb (fst k1) (fst k2)) then Ok (Nat.ltb (fst k1) (fst k2))
  else if py_eq (snd k1) (snd k2) then Ok false
  else py_lt (snd k1) (snd k2).

(** ** The builtin [sorted]

    [sorted(l, key=f)] computes the key of every element once, in order,
    and then sorts stably, comparing keys with [<] only.  It is modelled
    as a stable insertion sort.  When every comparison returns, each
    stable sort yields the same list; when a comparison raises, the
    exception propagates (on two elements the compared pair is forced; on
    longer lists which pairs meet is the algorithm's choice). *)

Section Sorting.
Context {A : Type}.

Section Pure.
Variable lt : A -> A -> bool.

Fixpoint insert (x : A) (l : list A) : list A :=
  match l with
  | [] => [x]
  | y :: l' => if lt y x then y :: insert x l' else x :: l
  end.

Fixpoint isort (l : list A) : list A :=
  match l with
  | [] => []
  | x :: l' => insert x (isort l')
  end.
End Pure.

Section Raising.
Variable ltM : A -> A -> result bool.

Fixpoint insertM (x : A) (l : list A) : result (list A) :=
  match l with
  | [] => Ok [x]
  | y :: l' =>
      b <- ltM y x ;;
      if b then (r <- insertM x l' ;; Ok (y :: r)) else Ok (x :: l)
  end.

Fixpoint isortM (l : list A) : result (list A) :=
  match l with
  | [] => Ok []
  | x :: l' => s <- isortM l' ;; insertM x s
  end.
End Raising.
End Sorting.

Definition sorted_by {A K : Type} (key : A -> result K)
    (lt : K -> K -> result bool) (l : list A) : result (list A) :=
  ks <- mapM (fun x => k <- key x ;; Ok (k, x)) l ;;
  s <- isortM (fun p q => lt (fst p) (fst q)) ks ;;
  Ok (map snd s).

(** ** sort_fragments *)

Definition category_order : list string :=
  ["Development"; "AI"; "Cloud"; "DevOps"; "Database"; "Network"; "CI/CD"].

(** [l.index(x)]: the first position whose element is [==] to [x];
    [None] stands for [ValueError]. *)
Fixpoint list_index (x : json) (l : list string) : option nat :=
  match l with
  | [] => None
  | c :: l' =>
      if py_eq (JStr c) x then Some 0
      else match list_index x l' with Some i => Some (S i) | None => None end
  end.

Definition cat_index (category : json) : nat :=
  match list_index category category_order with
  | Some i => i
  | None => List.length category_order
  end.

(** [f.get] exists on dicts only. *)
Definition sort_key (f : json) : result (nat * json) :=
  match f with
  | JObj d =>
      let category := dict_get_default "category" (JStr "ZZZ") d in
      Ok (cat_index category, dict_get_default "id" (JStr "") d)
  | _ => Raise AttributeError
  end.

Definition sort_fragments (fragments : list json) : result (list json) :=
  sorted_by sort_key key_lt fragments.

(** ** Console, output file and the [io] monad

    A run leaves a trace of events: the lines printed, and what happens
    to [templates/profile.json].  A computation gives its trace and how
    it ended: with a value, with an exception, or with [sys.exit]
    ([SystemExit] is no [Exception], so no handler of the script
    catches it). *)

(** One constructor for each [print] of the script. *)
Inductive line : Type :=
| ErrMissing (file : string) (missing : list string)
    (* [ERROR] file: Missing required fields: missing *)
| WarnIdMismatch (file : string) (id : json)
    (* [WARN]  file: id 'id' doesn't match filename *)
| ErrInvalidJSON (file : string) (msg : string)
    (* [ERROR] file: Invalid JSON - msg *)
| ErrOther (file : string) (e : exn)
    (* [ERROR] file: Error - e *)
| OkFragment (file : string) (name : json)
    (* [OK] file: name *)
| ErrNoSourceDir
    (* [ERROR] Template source directory not found: ... *)
| Scanning
    (* [DIR] Scanning ... *)
| Found (n : nat)
    (* Found n fragment files *)
| Rule
| Title
| RuleBlank
| ErrNoValid
    (* [ERROR] No valid fragments found! *)
| Summary (n : nat)
    (* [SUMMARY] n valid fragments *)
| ValidationComplete
    (* [OK] Validation complete *)
| DryRunHeader
    (* [DRY-RUN] Would generate: *)
| OutputPath
| Templates (n : nat)
| Size (n : nat)
| PreviewHeader
| Preview (text : string)
| Generated
    (* [OK] Generated: ... *)
| Footer.

Inductive severity : Type := ERROR | WARN | OK.

(** The tag a printed line starts with, when it has one. *)
Definition line_severity (l : line) : option severity :=
  match l with
  | ErrMissing _ _ | ErrInvalidJSON _ _ | ErrOther _ _
  | ErrNoSourceDir | ErrNoValid => Some ERROR
  | WarnIdMismatch _ _ => Some WARN
  | OkFragment _ _ | ValidationComplete | Generated => Some OK
  | _ => None
  end.

(** The file a per-file diagnostic names. *)
Definition line_file (l : line) : option string :=
  match l with
  | ErrMissing f _ | WarnIdMismatch f _ | ErrInvalidJSON f _
  | ErrOther f _ | OkFragment f _ => Some f
  | _ => None
  end.

Inductive event : Type :=
| Print (l : line)
| MkdirOutputParent
| WriteOutput (content : string).

Inductive status (A : Type) : Type :=
| Return (a : A)
| Raised (e : exn)
| Exited (code : nat).
Arguments Return {A} a.
Arguments Raised {A} e.
Arguments Exited {A} code.

Definition io (A : Type) : Type := (list event * status A)%type.

Definition ret {A : Type} (a : A) : io A := ([], Return a).

Definition raise {A : Type} (e : exn) : io A := ([], Raised e).

Definition sys_exit {A : Type} (code : nat) : io A := ([], Exited code).

Definition lift {A : Type} (r : result A) : io A :=
  ([], match r with Ok a => Return a | Raise e => Raised e end).

Definition io_bind {A B : Type} (c : io A) (k : A -> io B) : io B :=
  match c with
  | (t, Return a) => let (t', r) := k a in (t ++ t', r)
  | (t, Raised e) => (t, Raised e)
  | (t, Exited code) => (t, Exited code)
  end.

Notation "x <~ c ;; k" := (io_bind c (fun x => k))
  (at level 61, c at next level, right associativity).
Notation "c >> k" := (io_bind c (fun _ => k))
  (at level 61, right associativity).

Definition print (l : line) : io unit := ([Print l], Return tt).

(** [try: c  except Exception as e: handler e] *)
Definition try_except {A : Type} (c : io A) (handler : exn -> io A) : io A :=
  match c with
  | (t, Raised e) => let (t', r) := handler e in (t ++ t', r)
  | _ => c
  end.

(** ** Strings and paths *)

(** [s.endswith(suffix)], which decides [glob "*.json"]. *)
Definition endswith (suffix s : string) : bool :=
  let n := String.length s in
  let m := String.length suffix in
  (m <=? n)%nat && String.eqb (substring (n - m) m s) suffix.

Definition startswith (p s : string) : bool := String.prefix p s.

Fixpoint rfind (c : ascii) (s : string) : option nat :=
  match s with
  | EmptyString => None
  | String a s' =>
      match rfind c s' with
      | Some i => Some (S i)
      | None => if Ascii.eqb a c then Some 0%nat else None
      end
  end.

(** [Path.stem]: the name up to its last dot, when that dot is neither
    the first nor the last character. *)
Definition stem (name : string) : string :=
  match rfind "." name with
  | Some i =>
      if (0 <? i)%nat && (i <? String.length name - 1)%nat
      then substring 0 i name
      else name
  | None => name
  end.

(** [sub in s] on strings. *)
Definition is_substring (sub s : string) : bool :=
  match index 0 sub s with Some _ => true | None => false end.

(** ** load_fragment *)

Definition required_fields : list string :=
  ["id"; "name"; "description"; "category"; "variables"].

(** [field in data]: key membership on a dict, element membership on a
    list, substring on a string; other values are not containers. *)
Definition py_contains (field : string) (data : json) : result bool :=
  match data with
  | JObj d => Ok (dict_mem field d)
  | JArr xs => Ok (existsb (fun x => py_eq x (JStr field)) xs)
  | JStr s => Ok (is_substring field s)
  | _ => Raise TypeError
  end.

(** [[field for field in fields if field not in data]] *)
Fixpoint missing_fields (fields : list string) (data : json)
  : result (list string) :=
  match fields with
  | [] => Ok []
  | f :: fs =>
      b <- py_contains f data ;;
      m <- missing_fields fs data ;;
      Ok (if b then m else f :: m)
  end.

(** [data[k]] with a string [k]. *)
Definition py_getitem (data : json) (k : string) : result json :=
  match data with
  | JObj d =>
      match dict_get k d with
      | Some v => Ok v
      | None => Raise KeyError
      end
  | _ => Raise TypeError
  end.

Definition is_nil {A : Type} (l : list A) : bool :=
  match l with [] => true | _ => false end.

(** [file] is what [json.load] on the opened file gives. *)
Definition load_fragment (name : string) (file : result json)
  : io (option json) :=
  try_except
    (data <~ lift file ;;
     missing <~ lift (missing_fields required_fields data) ;;
     if negb (is_nil missing) then
       print (ErrMissing name missing) >> ret None
     else
       let expected_id := stem name in
       id <~ lift (py_getitem data "id") ;;
       (if negb (py_eq id (JStr expected_id))
        then print (WarnIdMismatch name id) else ret tt) >>
       ret (Some data))
    (fun e =>
       match e with
       | JSONDecodeError msg => print (ErrInvalidJSON name msg) >> ret None
       | _ => print (ErrOther name e) >> ret None
       end).

(** ** collect_fragments *)

(** Python's truth value of a JSON value. *)
Definition truthy (v : json) : bool :=
  match v with
  | JNull => false
  | JBool b => b
  | JInt n => negb (Z.eqb n 0)
  | JStr s => negb (String.eqb s "")
  | JArr xs => negb (is_nil xs)
  | JObj d => negb (is_nil d)
  end.

(** A directory entry: its name, and what [open] followed by
    [json.load] gives on it, a value or the exception raised. *)
Definition entry : Type := (string * result json)%type.

Definition is_candidate (f : entry) : bool :=
  endswith ".json" (fst f) && negb (startswith "_" (fst f)).

(** Paths of one directory compare by name. *)
Definition path_lt (f g : entry) : bool := String.ltb (fst f) (fst g).

Definition json_files (entries : list entry) : list entry :=
  isort path_lt (filter is_candidate entries).

Fixpoint collect_loop (files : list entry) (fragments : list json)
  : io (list json) :=
  match files with
  | [] => ret fragments
  | (name, file) :: rest =>
      fragment <~ load_fragment name file ;;
      match fragment with
      | Some f =>
          if truthy f then
            let fragments' := fragments ++ [f] in
            shown <~ lift (py_getitem f "name") ;;
            print (OkFragment name shown) >>
            collect_loop rest fragments'
          else collect_loop rest fragments
      | None => collect_loop rest fragments
      end
  end.

(** [source_dir] is [None] when template-source does not exist, and
    else its entries in the order the file system lists them. *)
Definition collect_fragments (source_dir : option (list entry))
  : io (list json) :=
  match source_dir with
  | None => print ErrNoSourceDir >> ret []
  | Some entries =>
      let files := json_files entries in
      print Scanning >>
      print (Found (List.length files)) >>
      collect_loop files []
  end.

(** ** generate_profile *)

(** The local time [datetime.now()] returns; [month] is in 1..12 and
    [day] in 1..31.  The clock of a machine shows a [year] of four
    digits, for which [%Y] is the year as it is. *)
Record datetime : Type := {
  year : N;
  month : N;
  day : N;
  hour : N;
  minute : N;
  second : N
}.

Definition digit (n : N) : ascii := ascii_of_N (48 + n mod 10).

(** [%m] and [%d]: two digits; [%Y]: four digits. *)
Definition two_digits (n : N) : string :=
  String (digit (n / 10)) (String (digit n) "").

Definition four_digits (n : N) : string :=
  String (digit (n / 1000)) (String (digit (n / 100))
    (String (digit (n / 10)) (String (digit n) ""))).

(** [now.strftime("%Y-%m-%d")] *)
Definition strftime_Ymd (now : datetime) : string :=
  (four_digits (year now) ++ "-" ++ two_digits (month now) ++ "-"
   ++ two_digits (day now))%string.

Definition generate_profile (now : datetime) (fragments : list json) : json :=
  JObj [("version", JStr "1.0.0");
        ("lastUpdated", JStr (strftime_Ymd now));
        ("author", JStr "TCM Community");
        ("description", JStr "Terminal Context Manager - Profile Templates & Environment Variables Dictionary");
        ("repository", JStr "https://github.com/ZhiZeYi/terminal-context-template");
        ("templates", JArr fragments)].

(** ** json.dumps(profile, indent=2, ensure_ascii=False) *)

Definition dquote : string := String "034"%char "".
Definition newline : string := String "010"%char "".

Definition hex_digit (n : nat) : ascii :=
  if (n <? 10)%nat then ascii_of_nat (48 + n) else ascii_of_nat (87 + n).

(** Quotes, backslashes and control characters are escaped; every other
    character is written as it is. *)
Definition escape_char (c : ascii) : string :=
  let n := nat_of_ascii c in
  if (n =? 34)%nat then ("\" ++ dquote)%string
  else if (n =? 92)%nat then "\\"
  else if (n =? 10)%nat then "\n"
  else if (n =? 13)%nat then "\r"
  else if (n =? 9)%nat then "\t"
  else if (n =? 8)%nat then "\b"
  else if (n =? 12)%nat then "\f"
  else if (n <? 32)%nat then
    ("\u00" ++ String (hex_digit (n / 16)) (String (hex_digit (n mod 16)) ""))%string
  else String c "".

Fixpoint escape (s : string) : string :=
  match s with
  | EmptyString => ""
  | String c s' => (escape_char c ++ escape s')%string
  end.

Definition encode_string (s : string) : string :=
  (dquote ++ escape s ++ dquote)%string.

Definition encode_int (n : Z) : string :=
  DecimalString.NilZero.string_of_int (Z.to_int n).

Fixpoint spaces (n : nat) : string :=
  match n with
  | O => ""
  | S n' => String " " (spaces n')
  end.

Definition newline_indent (level : nat) : string :=
  (newline ++ spaces (2 * level))%string.

Fixpoint encode (level : nat) (v : json) {struct v} : string :=
  match v with
  | JNull => "null"
  | JBool true => "true"
  | JBool false => "false"
  | JInt n => encode_int n
  | JStr s => encode_string s
  | JArr [] => "[]"
  | JArr (x :: xs) =>
      ("[" ++ newline_indent (S level) ++ encode (S level) x
       ++ (fix rest (xs : list json) : string :=
             match xs with
             | [] => ""
             | y :: ys =>
                 "," ++ newline_indent (S level) ++ encode (S level) y
                 ++ rest ys
             end) xs
       ++ newline_indent level ++ "]")%string
  | JObj [] => "{}"
  | JObj ((k, x) :: items) =>
      ("{" ++ newline_indent (S level) ++ encode_string k ++ ": "
       ++ encode (S level) x
       ++ (fix rest (items : dict) : string :=
             match items with
             | [] => ""
             | (k', y) :: items' =>
                 "," ++ newline_indent (S level) ++ encode_string k' ++ ": "
                 ++ encode (S level) y ++ rest items'
             end) items
       ++ newline_indent level ++ "}")%string
  end.

Definition json_dumps (v : json) : string := encode 0 v.

(** ** main *)

(** The parsed command line. *)
Record args : Type := {
  validate : bool;
  dry_run : bool
}.

(** What a run reads: the source directory and the clock. *)
Record environment : Type := {
  source_dir : option (list entry);
  now : datetime
}.

Definition write_output (content : string) : io unit :=
  ([MkdirOutputParent; WriteOutput content], Return tt).

Definition preview (output_json : string) : string :=
  if (500 <? String.length output_json)%nat
  then (substring 0 500 output_json ++ "...")%string
  else output_json.

Definition main (a : args) (env : environment) : io unit :=
  print Rule >>
  print Title >>
  print RuleBlank >>
  fragments <~ collect_fragments (source_dir env) ;;
  if is_nil fragments then
    print ErrNoValid >> sys_exit 1
  else
    print (Summary (List.length fragments)) >>
    if validate a then
      print ValidationComplete >> sys_exit 0
    else
      sorted_fragments <~ lift (sort_fragments fragments) ;;
      let profile := generate_profile (now env) sorted_fragments in
      let output_json := json_dumps profile in
      (if dry_run a then
         print DryRunHeader >>
         print OutputPath >>
         print (Templates (List.length sorted_fragments)) >>
         print (Size (String.length output_json)) >>
         print PreviewHeader >>
         print (Preview (preview output_json))
       else
         write_output (output_json ++ newline)%string >>
         print Generated >>
         print (Templates (List.length sorted_fragments)) >>
         print (Size (String.length output_json))) >>
      print Footer.

(** The status the process ends with: [sys.exit(n)] gives [n], an
    exception nobody caught gives 1, the end of [main] gives 0. *)
Definition exit_status {A : Type} (r : status A) : nat :=
  match r with
  | Return _ => 0
  | Exited code => code
  | Raised _ => 1
  end.

(** The last content written to the output file ([None] when the file
    was never opened), and whether the run did anything but print. *)
Fixpoint written (t : list event) : option string :=
  match t with
  | [] => None
  | e :: t' =>
      match written t' with
      | Some c => Some c
      | None => match e with WriteOutput c => Some c | _ => None end
      end
  end.

Definition touched (t : list event) : bool :=
  existsb (fun e => match e with Print _ => false | _ => true end) t.

(** ** Notions used in the statements *)

(** [x] may stand before [y] in a list sorted with [lt]. *)
Definition may_precede {A : Type} (lt : A -> A -> bool) (x y : A) : Prop :=
  lt y x = false.

Definition frag_category (f : json) : json :=
  match f with
  | JObj d => dict_get_default "category" (JStr "ZZZ") d
  | _ => JStr "ZZZ"
  end.

Definition frag_id (f : json) : json :=
  match f with
  | JObj d => dict_get_default "id" (JStr "") d
  | _ => JStr ""
  end.

(** The category rank of a fragment. *)
Definition rank (f : json) : nat := cat_index (frag_category f).

Definition known_category (f : json) : bool :=
  (rank f <? List.length category_order)%nat.

(** A dict whose [id], when it has one, is a string. *)
Definition string_id (f : json) : bool :=
  match f with
  | JObj _ => match frag_id f with JStr _ => true | _ => false end
  | _ => false
  end.

Definition id_text (f : json) : string :=
  match frag_id f with JStr s => s | _ => "" end.

(** The order of the keys [(rank, id)] when the ids are strings. *)
Definition text_key (f : json) : nat * string := (rank f, id_text f).

Definition text_key_lt (a b : nat * string) : bool :=
  (fst a <? fst b)%nat || ((fst a =? fst b)%nat && String.ltb (snd a) (snd b)).

Definition fragment_lt (f g : json) : bool :=
  text_key_lt (text_key f) (text_key g).

(** What [load_fragment] checks before it returns a value: a dict with
    the five required keys. *)
Definition validated (f : json) : bool :=
  match f with
  | JObj d => forallb (fun k => dict_mem k d) required_fields
  | _ => false
  end.

(** The fragment is placed somewhere before [g] in [l]. *)
Definition before (f g : json) (l : list json) : Prop :=
  exists l1 l2 l3, l = l1 ++ f :: l2 ++ g :: l3.

(** What the handlers of [load_fragment] print. *)
Definition error_line (name : string) (e : exn) : line :=
  match e with
  | JSONDecodeError msg => ErrInvalidJSON name msg
  | _ => ErrOther name e
  end.

Definition is_dict (v : json) : bool :=
  match v with JObj _ => true | _ => false end.

(** The fragments of the files that pass the validation, in the order of
    the files. *)
Definition accepted (files : list entry) : list json :=
  flat_map (fun e => match snd e with
                     | Ok f => if validated f then [f] else []
                     | Raise _ => []
                     end) files.

(** What the loop prints for one file. *)
Definition file_trace (e : entry) : list event :=
  match load_fragment (fst e) (snd e) with
  | (t, Return (Some f)) =>
      t ++ match py_getitem f "name" with
           | Ok shown => [Print (OkFragment (fst e) shown)]
           | Raise _ => []
           end
  | (t, _) => t
  end.

(** What [collect_fragments] returns. *)
Definition collected (dir : option (list entry)) : list json :=
  match dir with
  | None => []
  | Some entries => accepted (json_files entries)
  end.

(** [main] from the point where the fragments are collected. *)
Definition after_collect (a : args) (now : datetime) (fragments : list json)
  : io unit :=
  if is_nil fragments then
    print ErrNoValid >> sys_exit 1
  else
    print (Summary (List.length fragments)) >>
    if validate a then
      print ValidationComplete >> sys_exit 0
    else
      sorted_fragments <~ lift (sort_fragments fragments) ;;
      let profile := generate_profile now sorted_fragments in
      let output_json := json_dumps profile in
      (if dry_run a then
         print DryRunHeader >>
         print OutputPath >>
         print (Templates (List.length sorted_fragments)) >>
         print (Size (String.length output_json)) >>
         print PreviewHeader >>
         print (Preview (preview output_json))
       else
         write_output (output_json ++ newline)%string >>
         print Generated >>
         print (Templates (List.length sorted_fragments)) >>
         print (Size (String.length output_json))) >>
      print Footer.

(** A dict with the five required keys. *)
Definition has_required_fields (f : json) : Prop :=
  exists d, f = JObj d /\ forall k, In k required_fields -> dict_get k d <> None.

(** The calendar date of two clock readings is the same. *)
Definition same_date (n1 n2 : datetime) : Prop :=
  year n1 = year n2 /\ month n1 = month n2 /\ day n1 = day n2.

(** The same directory with the same files, in whatever order the file
    system lists it. *)
Definition same_directory (d1 d2 : option (list entry)) : Prop :=
  match d1, d2 with
  | None, None => True
  | Some e1, Some e2 => NoDup (map fst e1) /\ Permutation e1 e2
  | _, _ => False
  end.

(** A date of the calendar with a year of four digits. *)
Definition valid_date (now : datetime) : Prop :=
  (1000 <= year now <= 9999 /\ 1 <= month now <= 12 /\ 1 <= day now <= 31)%N.

Definition is_digit (c : ascii) : bool :=
  (48 <=? N_of_ascii c)%N && (N_of_ascii c <=? 57)%N.

(** The number a string of decimal digits denotes. *)
Fixpoint read_digits (s : string) (acc : N) : option N :=
  match s with
  | EmptyString => Some acc
  | String c s' =>
      if is_digit c then read_digits s' (10 * acc + (N_of_ascii c - 48))%N
      else None
  end.

Definition reads_as (s : string) (n : N) : bool :=
  match read_digits s 0 with
  | Some k => N.eqb k n
  | None => false
  end.

(** ** Small inputs *)

Definition fragment (id name category : string) : json :=
  JObj [("id", JStr id); ("name", JStr name); ("description", JStr "d");
        ("category", JStr category); ("variables", JArr [])].

Definition docker : json := fragment "docker" "Docker" "DevOps".
Definition openai : json := fragment "openai" "OpenAI" "AI".

Definition at_noon : datetime :=
  {| year := 2024; month := 3; day := 7; hour := 12; minute := 0; second := 0 |}.

Definition numbered : json :=
  JObj [("id", JInt 5); ("name", JStr "Five"); ("description", JStr "d");
        ("category", JStr "AI"); ("variables", JArr [])].

Definition first_a : json := fragment "a" "First" "Desktop".
Definition second_a : json := fragment "a" "Second" "Mobile".
Definition first_x : json := fragment "x" "First" "AI".
Definition second_x : json := fragment "x" "Second" "AI".

Definition lacking_variables : json :=
  JObj [("id", JStr "docker"); ("name", JStr "Docker");
        ("description", JStr "d"); ("category", JStr "DevOps")].

Definition five_names : json :=
  JArr [JStr "id"; JStr "name"; JStr "description"; JStr "category";
        JStr "variables"].

Definition bar : json := fragment "bar" "Bar" "AI".

Definition names_in_a_string : json :=
  JStr "id name description category variables".

Definition listing : list entry :=
  [("openai.json", Ok openai);
   ("_draft.json", Raise (JSONDecodeError "Expecting value"));
   ("notes.txt", Raise (OtherException "not JSON"));
   ("docker.json", Ok docker)].

Definition mixed_ids : environment :=
  {| source_dir := Some [("numbered.json", Ok numbered);
                         ("openai.json", Ok openai)];
     now := at_noon |}.

Definition generate : args := {| validate := false; dry_run := false |}.

Definition no_directory : environment :=
  {| source_dir := None; now := at_noon |}.

Definition two_fragments : environment :=
  {| source_dir := Some listing; now := at_noon |}.

Definition in_the_evening : datetime :=
  {| year := 2024; month := 3; day := 7; hour := 21; minute := 30; second := 5 |}.

(** ** Notions for the further properties *)

(** The events of a trace that are no [print]. *)
Definition effects (t : list event) : list event :=
  filter (fun e => match e with Print _ => false | _ => true end) t.

(** The [OK] lines of a trace: the file and the name shown. *)
Definition ok_lines (t : list event) : list (string * json) :=
  flat_map (fun e => match e with
                     | Print (OkFragment f n) => [(f, n)]
                     | _ => []
                     end) t.

(** The files for which a trace has an [ERROR] line. *)
Definition error_files (t : list event) : list string :=
  flat_map (fun e => match e with
                     | Print (ErrMissing f _) => [f]
                     | Print (ErrInvalidJSON f _) => [f]
                     | Print (ErrOther f _) => [f]
                     | _ => []
                     end) t.

(** [f["name"]] of a validated fragment. *)
Definition display_name (f : json) : json :=
  match py_getitem f "name" with Ok v => v | Raise _ => JNull end.

(** A dict whose [id] is an integer, and that integer. *)
Definition int_id (f : json) : bool :=
  match f with
  | JObj _ => match frag_id f with JInt _ => true | _ => false end
  | _ => false
  end.

Definition id_number (f : json) : Z :=
  match frag_id f with JInt n => n | _ => 0%Z end.

(** The order of the keys [(rank, id)] when the ids are integers. *)
Definition number_key (f : json) : nat * Z := (rank f, id_number f).

Definition number_key_lt (a b : nat * Z) : bool :=
  (fst a <? fst b)%nat || ((fst a =? fst b)%nat && (snd a <? snd b)%Z).

Definition fragment_number_lt (f g : json) : bool :=
  number_key_lt (number_key f) (number_key g).

(** Two fragments whose keys [sorted] can compare without looking at
    ids of other types than [str]: different ranks, or string ids. *)
Definition comparable (f g : json) : Prop :=
  rank f <> rank g \/ (string_id f = true /\ string_id g = true).


Definition dry : args := {| validate := false; dry_run := true |}.

Definition with_a_list : json :=
  JObj [("id", JArr [JInt 1]); ("name", JStr "L"); ("description", JStr "d");
        ("category", JStr "Cloud"); ("variables", JArr [])].

Definition number_2 : json :=
  JObj [("id", JInt 2); ("name", JStr "Two"); ("description", JStr "d");
        ("category", JStr "AI"); ("variables", JArr [])].

Definition number_10 : json :=
  JObj [("id", JInt 10); ("name", JStr "Ten"); ("description", JStr "d");
        ("category", JStr "AI"); ("variables", JArr [])].

Definition renamed : environment :=
  {| source_dir := Some [("a.json", Ok docker); ("z.json", Ok openai)];
     now := in_the_evening |}.



Definition empty_directory : environment :=
  {| source_dir := Some [("notes.txt", Raise (OtherException "not JSON"));
                         ("_draft.json", Ok docker)];
     now := at_noon |}.

(** * Properties *)

(** ** The order on strings *)

Lemma string_compare_refl (s : string) : String.compare s s = Eq.
Proof.
  induction s as [|a s IH]; simpl; [reflexivity|].
  unfold Ascii.compare. now rewrite N.compare_refl.
Qed.

Lemma string_compare_lt_trans (a b c : string) :
  String.compare a b = Lt -> String.compare b c = Lt ->
  String.compare a c = Lt.
Proof.
  revert b c.
  induction a as [|x a IH]; intros [|y b] [|z c]; simpl; try congruence.
  unfold Ascii.compare.
  destruct (N_of_ascii x ?= N_of_ascii y)%N eqn:E1;
    destruct (N_of_ascii y ?= N_of_ascii z)%N eqn:E2;
    try discriminate; intros H1 H2.
  - apply N.compare_eq in E1, E2. rewrite E1, E2, N.compare_refl. eauto.
  - apply N.compare_eq in E1. now rewrite E1, E2.
  - apply N.compare_eq in E2. now rewrite <- E2, E1.
  - apply N.compare_lt_iff in E1, E2.
    pose proof (N.lt_trans _ _ _ E1 E2) as L.
    apply N.compare_lt_iff in L. now rewrite L.
Qed.

Lemma string_ltb_irrefl (s : string) : String.ltb s s = false.
Proof. unfold String.ltb. now rewrite string_compare_refl. Qed.

Lemma string_ltb_trans (a b c : string) :
  String.ltb a b = true -> String.ltb b c = true -> String.ltb a c = true.
Proof.
  unfold String.ltb.
  destruct (String.compare a b) eqn:E1; try discriminate.
  destruct (String.compare b c) eqn:E2; try discriminate.
  now rewrite (string_compare_lt_trans _ _ _ E1 E2).
Qed.

Lemma string_ltb_connex (a b : string) :
  String.ltb a b = false -> String.ltb b a = false -> a = b.
Proof.
  unfold String.ltb. intros H1 H2.
  destruct (String.compare a b) eqn:E.
  - now apply String.compare_eq_iff.
  - discriminate.
  - rewrite String.compare_antisym, E in H2. discriminate.
Qed.

Lemma string_ltb_empty (s : string) : String.ltb s "" = false.
Proof. now destruct s. Qed.

Lemma string_empty_ltb (s : string) : s <> "" -> String.ltb "" s = true.
Proof. destruct s; [congruence | reflexivity]. Qed.

(** ** Insertion sort: permutation, order, stability, uniqueness *)

Section SortFacts.
Context {A : Type}.
Variable lt : A -> A -> bool.

Local Abbreviation precedes := (may_precede lt).

Lemma insert_perm (x : A) (l : list A) : Permutation (insert lt x l) (x :: l).
Proof.
  induction l as [|y l IH]; simpl; [reflexivity|].
  destruct (lt y x); [|reflexivity].
  rewrite IH. apply perm_swap.
Qed.

Lemma isort_perm (l : list A) : Permutation (isort lt l) l.
Proof.
  induction l as [|x l IH]; simpl; [reflexivity|].
  rewrite insert_perm. now constructor.
Qed.

Lemma isort_In (l : list A) (x : A) : In x (isort lt l) <-> In x l.
Proof.
  split; apply Permutation_in;
    [apply isort_perm | apply Permutation_sym, isort_perm].
Qed.

Lemma isort_length (l : list A) : List.length (isort lt l) = List.length l.
Proof. apply Permutation_length, isort_perm. Qed.

(** Stability: elements that [lt] does not separate keep the order
    they had. *)
Lemma insert_filter (p : A -> bool) (x : A) (l : list A) :
  (forall a b, p a = true -> p b = true -> lt a b = false) ->
  filter p (insert lt x l) = filter p (x :: l).
Proof.
  intros Hp. induction l as [|y l IH]; simpl in *; [reflexivity|].
  destruct (lt y x) eqn:Eyx; simpl; [|reflexivity].
  rewrite IH.
  destruct (p x) eqn:Epx, (p y) eqn:Epy; try reflexivity.
  rewrite (Hp y x Epy Epx) in Eyx. discriminate.
Qed.

Lemma isort_filter (p : A -> bool) (l : list A) :
  (forall a b, p a = true -> p b = true -> lt a b = false) ->
  filter p (isort lt l) = filter p l.
Proof.
  intros Hp. induction l as [|x l IH]; simpl; [reflexivity|].
  rewrite (insert_filter p x (isort lt l) Hp). simpl. now rewrite IH.
Qed.

Lemma isort_sorted_id (l : list A) :
  StronglySorted precedes l -> isort lt l = l.
Proof.
  induction 1 as [|x l Hs IH Hx]; simpl; [reflexivity|].
  rewrite IH. destruct l as [|y l]; simpl; [reflexivity|].
  inversion Hx as [|? ? Hy _]; subst. unfold may_precede in Hy.
  now rewrite Hy.
Qed.

(** Two sorted arrangements of the same elements agree when no two
    different elements may precede each other. *)
Lemma sorted_perm_unique (l1 l2 : list A) :
  Permutation l1 l2 ->
  StronglySorted precedes l1 -> StronglySorted precedes l2 ->
  (forall x y, In x l1 -> In y l1 ->
               precedes x y -> precedes y x -> x = y) ->
  l1 = l2.
Proof.
  revert l2. induction l1 as [|x l1 IH]; intros l2 HP S1 S2 Hanti.
  - apply Permutation_nil in HP. now subst.
  - destruct l2 as [|y l2].
    { apply Permutation_sym, Permutation_nil in HP. discriminate. }
    inversion S1 as [|? ? S1' F1]; subst.
    inversion S2 as [|? ? S2' F2]; subst.
    assert (Exy : x = y).
    { assert (Hx : In x (y :: l2))
        by (eapply Permutation_in; [exact HP | now left]).
      assert (Hy : In y (x :: l1))
        by (eapply Permutation_in;
            [apply Permutation_sym; exact HP | now left]).
      destruct Hx as [E|Hx]; [now subst|].
      destruct Hy as [E|Hy]; [now subst|].
      rewrite Forall_forall in F1, F2.
      apply Hanti; [now left | now right | now apply F1 | now apply F2]. }
    subst y. f_equal.
    apply IH; auto.
    + now apply Permutation_cons_inv in HP.
    + intros a b Ha Hb. apply Hanti; now right.
Qed.

Section StrictTotal.
(** [lt] compares keys, and the keys are strictly and totally
    ordered. *)
Context {K : Type}.
Variable key : A -> K.
Variable ltK : K -> K -> bool.
Hypothesis lt_key : forall x y, lt x y = ltK (key x) (key y).
Hypothesis ltK_irrefl : forall a, ltK a a = false.
Hypothesis ltK_trans :
  forall a b c, ltK a b = true -> ltK b c = true -> ltK a c = true.
Hypothesis ltK_connex :
  forall a b, ltK a b = false -> ltK b a = false -> a = b.

Lemma may_precede_total (x y : A) : precedes x y \/ precedes y x.
Proof.
  unfold may_precede. rewrite !lt_key.
  destruct (ltK (key y) (key x)) eqn:E1; [|now left].
  destruct (ltK (key x) (key y)) eqn:E2; [|now right].
  pose proof (ltK_trans _ _ _ E2 E1) as C.
  rewrite ltK_irrefl in C. discriminate.
Qed.

Lemma may_precede_trans (x y z : A) :
  precedes x y -> precedes y z -> precedes x z.
Proof.
  unfold may_precede. rewrite !lt_key. intros Hxy Hyz.
  destruct (ltK (key z) (key x)) eqn:Ezx; [|reflexivity].
  destruct (ltK (key x) (key y)) eqn:Exy.
  - pose proof (ltK_trans _ _ _ Ezx Exy) as C. congruence.
  - rewrite <- (ltK_connex _ _ Exy Hxy) in Hyz. congruence.
Qed.

Lemma may_precede_key (x y : A) :
  precedes x y -> precedes y x -> key x = key y.
Proof.
  unfold may_precede. rewrite !lt_key. intros H1 H2.
  now apply ltK_connex.
Qed.

Lemma insert_sorted (x : A) (l : list A) :
  StronglySorted precedes l -> StronglySorted precedes (insert lt x l).
Proof.
  induction 1 as [|y l Hs IH Hy]; simpl.
  - constructor; constructor.
  - destruct (lt y x) eqn:E.
    + constructor; [exact IH|].
      rewrite Forall_forall in *. intros z Hz.
      apply (Permutation_in _ (insert_perm x l)) in Hz.
      destruct Hz as [<-|Hz]; [|now apply Hy].
      destruct (may_precede_total y x) as [H|H]; [exact H|].
      unfold may_precede in H. congruence.
    + constructor; [now constructor|].
      constructor; [exact E|].
      rewrite Forall_forall in *. intros z Hz.
      apply may_precede_trans with y; [exact E | now apply Hy].
Qed.

Lemma isort_sorted (l : list A) : StronglySorted precedes (isort lt l).
Proof.
  induction l as [|x l IH]; simpl; [constructor | now apply insert_sorted].
Qed.

Lemma isort_idempotent (l : list A) : isort lt (isort lt l) = isort lt l.
Proof. apply isort_sorted_id, isort_sorted. Qed.

Lemma NoDup_map_injective (l : list A) (x y : A) :
  NoDup (map key l) -> In x l -> In y l -> key x = key y -> x = y.
Proof.
  induction l as [|a l IH]; simpl; [tauto|].
  intros Hnd Hx Hy E. inversion Hnd as [|? ? Hnotin Hnd']; subst.
  destruct Hx as [<-|Hx], Hy as [<-|Hy]; auto.
  - exfalso. apply Hnotin. rewrite E. now apply in_map.
  - exfalso. apply Hnotin. rewrite <- E. now apply in_map.
Qed.

(** With pairwise different keys the result does not depend on the
    order of the input. *)
Lemma isort_perm_invariant (l1 l2 : list A) :
  NoDup (map key l1) -> Permutation l1 l2 -> isort lt l1 = isort lt l2.
Proof.
  intros Hnd HP.
  apply sorted_perm_unique; try apply isort_sorted.
  - rewrite (isort_perm l1), HP. apply Permutation_sym, isort_perm.
  - intros x y Hx Hy H1 H2.
    apply (NoDup_map_injective l1); try (now apply isort_In).
    + exact Hnd.
    + now apply may_precede_key.
Qed.
End StrictTotal.
End SortFacts.

Lemma isort_map {A B : Type} (f : A -> B) (ltA : A -> A -> bool)
    (ltB : B -> B -> bool) (l : list A) :
  (forall x y, ltB (f x) (f y) = ltA x y) ->
  isort ltB (map f l) = map f (isort ltA l).
Proof.
  intros Hf. induction l as [|x l IH]; simpl; [reflexivity|].
  rewrite IH. generalize (isort ltA l) as s.
  induction s as [|y s IHs]; simpl; [reflexivity|].
  rewrite Hf. destruct (ltA y x); simpl; [now rewrite IHs | reflexivity].
Qed.

(** ** When no comparison raises, [sorted] is the insertion sort *)

Lemma insertM_total {A : Type} (ltM : A -> A -> result bool)
    (lt : A -> A -> bool) (x : A) (l : list A) :
  (forall y, In y l -> ltM y x = Ok (lt y x)) ->
  insertM ltM x l = Ok (insert lt x l).
Proof.
  induction l as [|y l IH]; simpl; intros H; [reflexivity|].
  rewrite (H y (or_introl eq_refl)). simpl.
  destruct (lt y x); [|reflexivity].
  rewrite IH by (intros z Hz; apply H; now right). reflexivity.
Qed.

Lemma isortM_total {A : Type} (ltM : A -> A -> result bool)
    (lt : A -> A -> bool) (l : list A) :
  (forall x y, In x l -> In y l -> ltM x y = Ok (lt x y)) ->
  isortM ltM l = Ok (isort lt l).
Proof.
  induction l as [|x l IH]; simpl; intros H; [reflexivity|].
  rewrite IH by (intros a b Ha Hb; apply H; now right). simpl.
  apply insertM_total. intros y Hy. apply isort_In in Hy.
  apply H; [now right | now left].
Qed.

Lemma mapM_total {A B : Type} (f : A -> result B) (g : A -> B) (l : list A) :
  (forall x, In x l -> f x = Ok (g x)) -> mapM f l = Ok (map g l).
Proof.
  induction l as [|x l IH]; simpl; intros H; [reflexivity|].
  rewrite (H x (or_introl eq_refl)). simpl.
  rewrite IH by (intros y Hy; apply H; now right). reflexivity.
Qed.

Lemma sorted_by_total {A K : Type} (key : A -> result K)
    (lt : K -> K -> result bool) (kf : A -> K) (ltb : A -> A -> bool)
    (l : list A) :
  (forall x, In x l -> key x = Ok (kf x)) ->
  (forall x y, In x l -> In y l -> lt (kf x) (kf y) = Ok (ltb x y)) ->
  sorted_by key lt l = Ok (isort ltb l).
Proof.
  intros Hkey Hlt. unfold sorted_by.
  rewrite (mapM_total _ (fun x => (kf x, x))); simpl.
  2:{ intros x Hx. now rewrite (Hkey x Hx). }
  rewrite (isortM_total _ (fun p q => ltb (snd p) (snd q))); simpl.
  2:{ intros p q Hp Hq. apply in_map_iff in Hp, Hq.
      destruct Hp as (x & <- & Hx), Hq as (y & <- & Hy). simpl. now apply Hlt. }
  rewrite (isort_map (fun x => (kf x, x)) ltb) by reflexivity.
  rewrite map_map. simpl. now rewrite map_id.
Qed.

(** ** The sort key of a fragment *)

Lemma text_key_lt_irrefl (a : nat * string) : text_key_lt a a = false.
Proof.
  unfold text_key_lt. rewrite Nat.ltb_irrefl, Nat.eqb_refl, string_ltb_irrefl.
  reflexivity.
Qed.

Lemma text_key_lt_trans (a b c : nat * string) :
  text_key_lt a b = true -> text_key_lt b c = true -> text_key_lt a c = true.
Proof.
  unfold text_key_lt. destruct a as [r1 s1], b as [r2 s2], c as [r3 s3]; simpl.
  rewrite !orb_true_iff, !andb_true_iff, !Nat.ltb_lt, !Nat.eqb_eq.
  intros [H1|[E1 L1]] [H2|[E2 L2]].
  - left; lia.
  - left; lia.
  - left; lia.
  - right. split; [lia|]. eapply string_ltb_trans; eassumption.
Qed.

Lemma text_key_lt_connex (a b : nat * string) :
  text_key_lt a b = false -> text_key_lt b a = false -> a = b.
Proof.
  unfold text_key_lt. destruct a as [r1 s1], b as [r2 s2]; simpl.
  rewrite !orb_false_iff, !andb_false_iff, !Nat.ltb_ge, !Nat.eqb_neq.
  intros [H1 H1'] [H2 H2'].
  assert (r1 = r2) by lia. subst r2. f_equal.
  destruct H1' as [?|H1']; [congruence|].
  destruct H2' as [?|H2']; [congruence|].
  now apply string_ltb_connex.
Qed.

(** On string ids the key and its comparison never raise, and the
    comparison is [fragment_lt]. *)
Lemma sort_key_string_id (f : json) :
  string_id f = true -> sort_key f = Ok (rank f, JStr (id_text f)).
Proof.
  destruct f as [| | | | |d]; simpl; try discriminate.
  unfold rank, id_text, frag_id, frag_category. simpl.
  destruct (dict_get_default "id" (JStr "") d); try discriminate. reflexivity.
Qed.

Lemma key_lt_text (a b : nat * string) :
  key_lt (fst a, JStr (snd a)) (fst b, JStr (snd b)) = Ok (text_key_lt a b).
Proof.
  unfold key_lt, text_key_lt. destruct a as [r1 s1], b as [r2 s2]; simpl.
  destruct (Nat.eqb_spec r1 r2) as [->|Hne]; simpl.
  - rewrite Nat.ltb_irrefl. simpl.
    destruct (String.eqb_spec s1 s2) as [->|Hs]; [|reflexivity].
    now rewrite string_ltb_irrefl.
  - now rewrite orb_false_r.
Qed.

Lemma sort_fragments_string_ids (fs : list json) :
  Forall (fun f => string_id f = true) fs ->
  sort_fragments fs = Ok (isort fragment_lt fs).
Proof.
  intros H. rewrite Forall_forall in H. unfold sort_fragments.
  apply sorted_by_total with (kf := fun f => (rank f, JStr (id_text f))).
  - intros f Hf. now apply sort_key_string_id, H.
  - intros f g _ _. apply (key_lt_text (text_key f) (text_key g)).
Qed.

(** ** Category ranks *)

Lemma py_eq_str (c : string) (x : json) : py_eq (JStr c) x = true <-> x = JStr c.
Proof.
  destruct x; simpl; try (split; [discriminate | congruence]).
  rewrite String.eqb_eq. split; congruence.
Qed.

Lemma list_index_none (x : json) (l : list string) :
  (forall c, x = JStr c -> ~ In c l) -> list_index x l = None.
Proof.
  induction l as [|c l IH]; intros H; [reflexivity|].
  cbn [list_index]. destruct (py_eq (JStr c) x) eqn:E.
  - apply py_eq_str in E. exfalso. apply (H c E). now left.
  - rewrite IH; [reflexivity|]. intros c' Hc' Hin. apply (H c' Hc'). now right.
Qed.

Lemma list_index_some (x : json) (l : list string) (i : nat) :
  list_index x l = Some i ->
  (i < List.length l)%nat /\ exists c, x = JStr c /\ nth_error l i = Some c.
Proof.
  revert i. induction l as [|c l IH]; intros i; [discriminate|].
  cbn [list_index]. destruct (py_eq (JStr c) x) eqn:E.
  - intros [= <-]. apply py_eq_str in E. split; [simpl; lia|]. now exists c.
  - destruct (list_index x l) as [j|]; [|discriminate].
    intros [= <-]. destruct (IH j eq_refl) as (Hj & c' & Hx & Hn).
    split; [simpl; lia|]. now exists c'.
Qed.

(** A listed category has its position as rank. *)
Lemma cat_index_listed (c : string) (i : nat) :
  nth_error category_order i = Some c -> cat_index (JStr c) = i.
Proof.
  unfold category_order.
  do 7 (destruct i as [|i]; [intros [= <-]; reflexivity|]).
  simpl. destruct i; discriminate.
Qed.

(** Every other value has the rank after the last listed one. *)
Lemma cat_index_unlisted (x : json) :
  (forall c, x = JStr c -> ~ In c category_order) ->
  cat_index x = List.length category_order.
Proof.
  intros H. unfold cat_index. now rewrite (list_index_none x _ H).
Qed.

Lemma cat_index_known (x : json) :
  (cat_index x < List.length category_order)%nat ->
  exists c, x = JStr c /\ In c category_order.
Proof.
  unfold cat_index. destruct (list_index x category_order) as [i|] eqn:E.
  - intros _. destruct (list_index_some _ _ _ E) as (_ & c & Hx & Hn).
    exists c. split; [exact Hx|]. eapply nth_error_In; eassumption.
  - intros H. exfalso. apply (Nat.lt_irrefl _ H).
Qed.

Lemma cat_index_bound (x : json) : (cat_index x <= List.length category_order)%nat.
Proof.
  unfold cat_index. destruct (list_index x category_order) as [i|] eqn:E.
  - apply list_index_some in E. lia.
  - lia.
Qed.

(** ** The order of the output *)

Lemma string_leb_ltb (a b : string) :
  String.leb a b = true <-> String.ltb b a = false.
Proof.
  unfold String.leb, String.ltb. rewrite (String.compare_antisym a b).
  destruct (String.compare b a); simpl; split; congruence.
Qed.

(** [may_precede] on fragments, spelled out: a smaller rank, or the
    same rank and an id that is not greater. *)
Lemma fragment_order (f g : json) :
  may_precede fragment_lt f g <->
  (rank f < rank g)%nat \/
  (rank f = rank g /\ String.leb (id_text f) (id_text g) = true).
Proof.
  unfold may_precede, fragment_lt, text_key_lt, text_key. simpl.
  rewrite string_leb_ltb, orb_false_iff, andb_false_iff, Nat.ltb_ge, Nat.eqb_neq.
  split.
  - intros [H1 [H2|H2]]; [left; lia|].
    destruct (Nat.eq_dec (rank f) (rank g)); [right; auto | left; lia].
  - intros [H|[H1 H2]]; (split; [lia|]); [left; lia | now right].
Qed.

Lemma StronglySorted_apart {A : Type} (R : A -> A -> Prop)
    (l1 l2 l3 : list A) (x y : A) :
  StronglySorted R (l1 ++ x :: l2 ++ y :: l3) -> R x y.
Proof.
  induction l1 as [|a l1 IH]; simpl; intros H.
  - inversion H as [|? ? _ F]; subst. rewrite Forall_forall in F.
    apply F. apply in_or_app. right. now left.
  - inversion H; subst. auto.
Qed.

Lemma fragments_sorted (fs : list json) :
  StronglySorted (may_precede fragment_lt) (isort fragment_lt fs).
Proof.
  apply (isort_sorted fragment_lt text_key text_key_lt).
  - reflexivity.
  - apply text_key_lt_irrefl.
  - apply text_key_lt_trans.
  - apply text_key_lt_connex.
Qed.

Lemma sorted_fragments_order (fs l1 l2 l3 : list json) (f g : json) :
  isort fragment_lt fs = l1 ++ f :: l2 ++ g :: l3 ->
  (rank f < rank g)%nat \/
  (rank f = rank g /\ String.leb (id_text f) (id_text g) = true).
Proof.
  intros E. apply fragment_order.
  apply (StronglySorted_apart _ l1 l2 l3). rewrite <- E.
  apply fragments_sorted.
Qed.

Lemma before_or_after (l : list json) (f g : json) :
  In f l -> In g l -> f <> g -> before f g l \/ before g f l.
Proof.
  intros Hf Hg Hne. apply in_split in Hf. destruct Hf as (l1 & l2 & ->).
  apply in_app_or in Hg. destruct Hg as [Hg|[Hg|Hg]]; [|congruence|].
  - right. apply in_split in Hg. destruct Hg as (a & b & ->).
    exists a, b, l2. now rewrite <- app_assoc.
  - left. apply in_split in Hg. destruct Hg as (a & b & ->).
    now exists l1, a, b.
Qed.

(** C1, as stated, fails: [load_fragment] accepts a fragment whose [id]
    is the number 5, and on the valid fragments [numbered] and [openai],
    both of category AI, [sorted] has to compare 5 with a string and
    raises [TypeError] instead of returning a list. *)
Lemma sort_fragments_raises_on_valid_fragments :
  load_fragment "numbered.json" (Ok numbered)
    = ([Print (WarnIdMismatch "numbered.json" (JInt 5))],
       Return (Some numbered)) /\
  Forall (fun f => validated f = true) [numbered; openai] /\
  sort_fragments [numbered; openai] = Raise TypeError.
Proof.
  split; [reflexivity|]. split; [|reflexivity].
  repeat constructor.
Qed.

(** C1, amended: for every list of valid fragments whose ids are
    strings, [sort_fragments] returns a rearrangement of the list in
    which a fragment stands before another only if its category rank is
    smaller, or the ranks are equal and its id is not greater in the
    lexicographic order.  The rank is the position of the category in
    [category_order], and the length of that list for every category
    that is not in it, so that every fragment of a listed category
    stands before every fragment of an unlisted one. *)
Theorem sort_fragments_by_rank_then_id (fs : list json)
    (Hvalid : Forall (fun f => validated f = true) fs)
    (Hids : Forall (fun f => string_id f = true) fs) :
  exists out,
    sort_fragments fs = Ok out /\
    Permutation out fs /\
    (forall f g, before f g out ->
       (rank f < rank g)%nat \/
       (rank f = rank g /\ String.leb (id_text f) (id_text g) = true)) /\
    (forall f c i, In f fs -> frag_category f = JStr c ->
       nth_error category_order i = Some c -> rank f = i) /\
    (forall f, In f fs ->
       (forall c, frag_category f = JStr c -> ~ In c category_order) ->
       rank f = List.length category_order) /\
    (forall f g, In f out -> In g out ->
       known_category f = true -> known_category g = false ->
       before f g out /\ (rank f < rank g)%nat).
Proof.
  exists (isort fragment_lt fs).
  split; [now apply sort_fragments_string_ids|].
  split; [apply isort_perm|].
  split; [intros f g (l1 & l2 & l3 & E); eapply sorted_fragments_order; eauto|].
  split; [intros f c i _ Hc Hn; unfold rank; rewrite Hc;
          now apply cat_index_listed|].
  split; [intros f _ Hc; unfold rank; now apply cat_index_unlisted|].
  intros f g Hf Hg Kf Kg. unfold known_category in *.
  apply Nat.ltb_lt in Kf. apply Nat.ltb_ge in Kg.
  split; [|lia].
  destruct (before_or_after _ f g Hf Hg) as [H|(l1 & l2 & l3 & E)].
  - intros ->. lia.
  - exact H.
  - apply sorted_fragments_order in E. lia.
Qed.

(** The scenario of the specification: docker (DevOps) and openai (AI)
    come out as [openai; docker]. *)
Lemma sort_fragments_docker_openai :
  sort_fragments [docker; openai] = Ok [openai; docker] /\
  exists out,
    sort_fragments [docker; openai] = Ok out /\
    Permutation out [docker; openai] /\
    (forall f g, before f g out ->
       (rank f < rank g)%nat \/
       (rank f = rank g /\ String.leb (id_text f) (id_text g) = true)) /\
    (forall f c i, In f [docker; openai] -> frag_category f = JStr c ->
       nth_error category_order i = Some c -> rank f = i) /\
    (forall f, In f [docker; openai] ->
       (forall c, frag_category f = JStr c -> ~ In c category_order) ->
       rank f = List.length category_order) /\
    (forall f g, In f out -> In g out ->
       known_category f = true -> known_category g = false ->
       before f g out /\ (rank f < rank g)%nat).
Proof.
  split; [reflexivity|].
  apply (sort_fragments_by_rank_then_id [docker; openai]).
  - repeat constructor.
  - repeat constructor.
Defined.

(** ** Sorting twice, sorting a rearrangement, stability *)

Lemma string_id_perm (l1 l2 : list json) :
  Permutation l1 l2 ->
  Forall (fun f => string_id f = true) l1 ->
  Forall (fun f => string_id f = true) l2.
Proof.
  intros HP H. rewrite Forall_forall in *. intros f Hf. apply H.
  eapply Permutation_in; [apply Permutation_sym; exact HP | exact Hf].
Qed.

Lemma keys_sorted (ks : list (nat * string)) :
  StronglySorted (may_precede text_key_lt) (isort text_key_lt ks).
Proof.
  apply (isort_sorted text_key_lt (fun k => k) text_key_lt).
  - reflexivity.
  - apply text_key_lt_irrefl.
  - apply text_key_lt_trans.
  - apply text_key_lt_connex.
Qed.

Lemma sorted_keys_perm (l1 l2 : list json) :
  Permutation l1 l2 ->
  map text_key (isort fragment_lt l1) = map text_key (isort fragment_lt l2).
Proof.
  intros HP.
  rewrite <- !(isort_map text_key fragment_lt text_key_lt) by reflexivity.
  apply (sorted_perm_unique text_key_lt); try apply keys_sorted.
  - eapply Permutation_trans; [apply isort_perm|].
    eapply Permutation_trans; [|apply Permutation_sym, isort_perm].
    now apply Permutation_map.
  - intros x y _ _ H1 H2. now apply text_key_lt_connex.
Qed.

Lemma sorted_fragments_perm (l1 l2 : list json) :
  NoDup (map text_key l1) -> Permutation l1 l2 ->
  isort fragment_lt l1 = isort fragment_lt l2.
Proof.
  apply (isort_perm_invariant fragment_lt text_key text_key_lt).
  - reflexivity.
  - apply text_key_lt_irrefl.
  - apply text_key_lt_trans.
  - apply text_key_lt_connex.
Qed.

Lemma fragments_idempotent (fs : list json) :
  isort fragment_lt (isort fragment_lt fs) = isort fragment_lt fs.
Proof. apply isort_sorted_id, fragments_sorted. Qed.

(** C2, as stated, fails: [first_a] and [second_a] have the same id and
    two categories outside the precedence list, hence the same sort key;
    a stable sort returns either arrangement of them as it is, so two
    rearrangements of one input give two different orders of the
    (category, id) pairs.  Likewise for two fragments with the same
    (category, id) and different names.  And on valid fragments whose
    ids are a string and a number there is no output at all. *)
Lemma sort_fragments_depends_on_input_order :
  (Permutation [first_a; second_a] [second_a; first_a] /\
   sort_fragments [first_a; second_a] = Ok [first_a; second_a] /\
   sort_fragments [second_a; first_a] = Ok [second_a; first_a] /\
   map (fun f => (frag_category f, frag_id f)) [first_a; second_a]
     <> map (fun f => (frag_category f, frag_id f)) [second_a; first_a]) /\
  (Permutation [first_x; second_x] [second_x; first_x] /\
   sort_fragments [first_x; second_x] = Ok [first_x; second_x] /\
   sort_fragments [second_x; first_x] = Ok [second_x; first_x] /\
   [first_x; second_x] <> [second_x; first_x]) /\
  (Forall (fun f => validated f = true) [openai; numbered] /\
   sort_fragments [openai; numbered] = Raise TypeError).
Proof.
  split; [|split];
    try ((split; [apply perm_swap|]); (split; [reflexivity|]);
         (split; [reflexivity|]); discriminate).
  split; [repeat constructor | reflexivity].
Qed.

(** C2, amended: for every list of valid fragments whose ids are
    strings, [sort_fragments] returns a list that it leaves unchanged
    when applied again; the result is a rearrangement of the input, so
    duplicates are neither dropped nor merged; fragments with the same
    sort key (category rank, id), and so all those with the same
    (category, id), keep the order they had in the input; and for every
    rearrangement of the input the result carries the same sequence of
    sort keys, and is the same list when no two fragments share a sort
    key. *)
Theorem sort_fragments_idempotent_stable (fs : list json)
    (Hvalid : Forall (fun f => validated f = true) fs)
    (Hids : Forall (fun f => string_id f = true) fs) :
  exists out,
    sort_fragments fs = Ok out /\
    sort_fragments out = Ok out /\
    Permutation out fs /\
    List.length out = List.length fs /\
    (forall p : json -> bool,
       (forall a b, p a = true -> p b = true -> text_key a = text_key b) ->
       filter p out = filter p fs) /\
    (forall fs', Permutation fs fs' ->
       exists out',
         sort_fragments fs' = Ok out' /\
         map text_key out' = map text_key out /\
         (NoDup (map text_key fs) -> out' = out)).
Proof.
  exists (isort fragment_lt fs).
  split; [now apply sort_fragments_string_ids|].
  split.
  { rewrite sort_fragments_string_ids.
    - now rewrite fragments_idempotent.
    - eapply string_id_perm; [apply Permutation_sym, isort_perm | exact Hids]. }
  split; [apply isort_perm|].
  split; [apply isort_length|].
  split.
  { intros p Hp. apply isort_filter. intros a b Ha Hb.
    unfold fragment_lt. rewrite (Hp a b Ha Hb). apply text_key_lt_irrefl. }
  intros fs' HP. exists (isort fragment_lt fs').
  split; [apply sort_fragments_string_ids; eapply string_id_perm; eauto|].
  split; [apply sorted_keys_perm; now apply Permutation_sym|].
  intros Hnd. symmetry. now apply sorted_fragments_perm.
Qed.

Lemma sort_fragments_idempotent_stable_example :
  exists out,
    sort_fragments [docker; first_x; openai; second_x] = Ok out /\
    sort_fragments out = Ok out /\
    Permutation out [docker; first_x; openai; second_x] /\
    List.length out = List.length [docker; first_x; openai; second_x] /\
    (forall p : json -> bool,
       (forall a b, p a = true -> p b = true -> text_key a = text_key b) ->
       filter p out = filter p [docker; first_x; openai; second_x]) /\
    (forall fs', Permutation [docker; first_x; openai; second_x] fs' ->
       exists out',
         sort_fragments fs' = Ok out' /\
         map text_key out' = map text_key out /\
         (NoDup (map text_key [docker; first_x; openai; second_x]) ->
          out' = out)).
Proof.
  apply (sort_fragments_idempotent_stable [docker; first_x; openai; second_x]).
  - repeat constructor.
  - repeat constructor.
Defined.

(** ** The defaults of the sort key *)

Lemma string_leb_empty (s : string) : String.leb s "" = true -> s = "".
Proof. destruct s; [reflexivity | discriminate]. Qed.

Lemma rank_without_category (d : dict) :
  dict_get "category" d = None -> rank (JObj d) = List.length category_order.
Proof.
  intros H. unfold rank, frag_category, dict_get_default. rewrite H. reflexivity.
Qed.

(** C10, as stated, fails: on two key-value fragments, one with the
    number 5 as id and one with no id, the sort key is computed for both,
    and then [sorted] compares 5 with the default [""] and raises
    [TypeError]: the Sorter is not total on arbitrary key-value
    fragments. *)
Lemma sort_fragments_raises_on_arbitrary_dicts :
  sort_key (JObj [("id", JInt 5)]) = Ok (7, JInt 5) /\
  sort_key (JObj []) = Ok (7, JStr "") /\
  sort_fragments [JObj [("id", JInt 5)]; JObj []] = Raise TypeError.
Proof. repeat split. Qed.

(** C10, amended: the sort key is total on arbitrary key-value
    fragments, with ["ZZZ"] for a missing category and [""] for a
    missing id; the Sorter itself returns a list whenever every id that
    is present is a string.  A fragment with no category then has the
    rank of the unlisted categories and stands after every fragment of
    a listed category, and no fragment of the same rank with a
    non-empty id stands before a fragment with no id. *)
Theorem sort_key_defaults (fs : list json)
    (Hids : Forall (fun f => string_id f = true) fs) :
  (forall d, sort_key (JObj d)
             = Ok (cat_index (dict_get_default "category" (JStr "ZZZ") d),
                   dict_get_default "id" (JStr "") d)) /\
  (forall d, dict_get "category" d = None ->
             rank (JObj d) = List.length category_order /\
             known_category (JObj d) = false) /\
  (forall d, dict_get "id" d = None -> frag_id (JObj d) = JStr "") /\
  exists out,
    sort_fragments fs = Ok out /\
    Permutation out fs /\
    (forall d g, In (JObj d) out -> dict_get "category" d = None ->
       In g out -> known_category g = true -> before g (JObj d) out) /\
    (forall d g, dict_get "id" d = None -> before g (JObj d) out ->
       rank g = rank (JObj d) -> id_text g = "").
Proof.
  split; [reflexivity|].
  split.
  { intros d H. unfold known_category. rewrite (rank_without_category d H).
    split; [reflexivity | apply Nat.ltb_irrefl]. }
  split.
  { intros d H. unfold frag_id, dict_get_default. now rewrite H. }
  exists (isort fragment_lt fs).
  split; [now apply sort_fragments_string_ids|].
  split; [apply isort_perm|].
  split.
  - intros d g Hf Hg Hc Kg. unfold known_category in Kg.
    apply Nat.ltb_lt in Kg. pose proof (rank_without_category d Hg) as Rf.
    destruct (before_or_after _ g (JObj d) Hc Hf) as [H|(l1 & l2 & l3 & E)].
    + intros ->. lia.
    + exact H.
    + apply sorted_fragments_order in E. lia.
  - intros d g Hd (l1 & l2 & l3 & E) Hr.
    apply sorted_fragments_order in E. destruct E as [E|[_ E]]; [lia|].
    unfold id_text at 2 in E. unfold frag_id, dict_get_default in E.
    rewrite Hd in E. now apply string_leb_empty.
Qed.

Lemma sort_key_defaults_example :
  sort_fragments [JObj [("id", JStr "b")]; JObj []; openai]
    = Ok [openai; JObj []; JObj [("id", JStr "b")]] /\
  exists out,
    sort_fragments [JObj [("id", JStr "b")]; JObj []; openai] = Ok out /\
    Permutation out [JObj [("id", JStr "b")]; JObj []; openai] /\
    (forall d g, In (JObj d) out -> dict_get "category" d = None ->
       In g out -> known_category g = true -> before g (JObj d) out) /\
    (forall d g, dict_get "id" d = None -> before g (JObj d) out ->
       rank g = rank (JObj d) -> id_text g = "").
Proof.
  split; [reflexivity|].
  apply (sort_key_defaults [JObj [("id", JStr "b")]; JObj []; openai]).
  repeat constructor.
Defined.

(** ** load_fragment, case by case *)

Lemma py_eq_to_str (x : json) (c : string) : py_eq x (JStr c) = true <-> x = JStr c.
Proof.
  destruct x; simpl; try (split; [discriminate | congruence]).
  rewrite String.eqb_eq. split; congruence.
Qed.

Lemma missing_fields_dict (fields : list string) (d : dict) :
  missing_fields fields (JObj d)
  = Ok (filter (fun k => negb (dict_mem k d)) fields).
Proof.
  induction fields as [|k fields IH]; [reflexivity|].
  cbn [missing_fields filter]. rewrite IH. simpl.
  now destruct (dict_mem k d).
Qed.

Lemma validated_no_missing (d : dict) :
  validated (JObj d) = true <->
  filter (fun k => negb (dict_mem k d)) required_fields = [].
Proof.
  unfold validated. generalize required_fields as fields.
  induction fields as [|k fields IH]; simpl; [tauto|].
  destruct (dict_mem k d); simpl; [exact IH|].
  split; intros; discriminate.
Qed.

Lemma missing_fields_exact (d : dict) (k : string) :
  In k (filter (fun k => negb (dict_mem k d)) required_fields) <->
  In k required_fields /\ dict_get k d = None.
Proof.
  rewrite filter_In. unfold dict_mem.
  destruct (dict_get k d); simpl; split; intros [H1 H2]; split;
    auto; discriminate.
Qed.

Lemma error_line_severity (name : string) (e : exn) :
  line_severity (error_line name e) = Some ERROR /\
  line_file (error_line name e) = Some name.
Proof. now destruct e. Qed.

Lemma load_fragment_raise (name : string) (e : exn) :
  load_fragment name (Raise e) = ([Print (error_line name e)], Return None).
Proof. now destruct e. Qed.

Lemma load_fragment_ok (name : string) (data : json) :
  load_fragment name (Ok data) =
  match missing_fields required_fields data with
  | Raise e => ([Print (error_line name e)], Return None)
  | Ok missing =>
      if negb (is_nil missing)
      then ([Print (ErrMissing name missing)], Return None)
      else match py_getitem data "id" with
           | Raise e => ([Print (error_line name e)], Return None)
           | Ok id =>
               (if negb (py_eq id (JStr (stem name)))
                then [Print (WarnIdMismatch name id)] else [],
                Return (Some data))
           end
  end.
Proof.
  unfold load_fragment, io_bind, lift, try_except. cbv beta iota.
  destruct (missing_fields required_fields data) as [missing|e].
  - destruct missing as [|k missing].
    + cbv beta iota delta [is_nil negb].
      destruct (py_getitem data "id") as [id|e].
      * now destruct (py_eq id (JStr (stem name))).
      * now destruct e.
    + reflexivity.
  - now destruct e.
Qed.

Lemma load_fragment_dict_missing (name : string) (d : dict) :
  validated (JObj d) = false ->
  load_fragment name (Ok (JObj d))
  = ([Print (ErrMissing name
               (filter (fun k => negb (dict_mem k d)) required_fields))],
     Return None).
Proof.
  intros H. rewrite load_fragment_ok, missing_fields_dict.
  destruct (filter _ required_fields) eqn:E; [|reflexivity].
  apply validated_no_missing in E. congruence.
Qed.

Lemma load_fragment_dict_valid (name : string) (d : dict) :
  validated (JObj d) = true ->
  exists id,
    dict_get "id" d = Some id /\
    load_fragment name (Ok (JObj d))
    = (if py_eq id (JStr (stem name))
       then [] else [Print (WarnIdMismatch name id)],
       Return (Some (JObj d))).
Proof.
  intros H. rewrite load_fragment_ok, missing_fields_dict.
  pose proof (proj1 (validated_no_missing d) H) as E. rewrite E.
  unfold validated in H. simpl in H. unfold dict_mem in H at 1.
  cbn [is_nil negb py_getitem].
  destruct (dict_get "id" d) as [id|]; [|discriminate].
  exists id. split; [reflexivity|].
  now destruct (py_eq id (JStr (stem name))).
Qed.

(** A value that is no dict is never returned: on [None], a boolean or
    a number the membership test raises, on a list or a string either
    some field is reported missing or the subscript [data["id"]]
    raises. *)
Lemma load_fragment_non_dict (name : string) (v : json) :
  is_dict v = false ->
  exists l, load_fragment name (Ok v) = ([Print l], Return None) /\
            line_severity l = Some ERROR /\ line_file l = Some name.
Proof.
  intros H. rewrite load_fragment_ok.
  destruct v as [|b|n|s|xs|d]; try discriminate;
    try (exists (ErrOther name TypeError); now repeat split).
  - destruct (missing_fields required_fields (JStr s)) as [[|k m]|e].
    + exists (ErrOther name TypeError). now repeat split.
    + exists (ErrMissing name (k :: m)). now repeat split.
    + exists (error_line name e). split; [reflexivity|].
      apply error_line_severity.
  - destruct (missing_fields required_fields (JArr xs)) as [[|k m]|e].
    + exists (ErrOther name TypeError). now repeat split.
    + exists (ErrMissing name (k :: m)). now repeat split.
    + exists (error_line name e). split; [reflexivity|].
      apply error_line_severity.
Qed.

(** Every call returns: a validated dict, after at most a warning, or
    nothing, after exactly one ERROR line that names the file. *)
Lemma load_fragment_cases (name : string) (file : result json) :
  exists t r,
    load_fragment name file = (t, Return r) /\
    match r with
    | Some f =>
        file = Ok f /\ validated f = true /\
        exists id, t = (if py_eq id (JStr (stem name))
                        then [] else [Print (WarnIdMismatch name id)])
    | None =>
        exists l, t = [Print l] /\ line_severity l = Some ERROR /\
                  line_file l = Some name
    end.
Proof.
  destruct file as [v|e].
  - destruct (is_dict v) eqn:D.
    + destruct v as [| | | | |d]; try discriminate.
      destruct (validated (JObj d)) eqn:V.
      * destruct (load_fragment_dict_valid name d V) as (id & _ & E).
        do 2 eexists. split; [exact E|]. repeat split; auto. now exists id.
      * do 2 eexists. split; [now apply load_fragment_dict_missing|].
        eexists. now repeat split.
    + destruct (load_fragment_non_dict name v D) as (l & E & Hl).
      do 2 eexists. split; [exact E|]. now exists l.
  - do 2 eexists. split; [apply load_fragment_raise|].
    eexists. split; [reflexivity|]. apply error_line_severity.
Qed.

(** ** collect_fragments *)

Lemma io_bind_return {A B : Type} (t : list event) (a : A) (k : A -> io B) :
  io_bind (t, Return a) k = (t ++ fst (k a), snd (k a)).
Proof. unfold io_bind. now destruct (k a). Qed.

Lemma validated_usable (f : json) :
  validated f = true ->
  truthy f = true /\ exists shown, py_getitem f "name" = Ok shown.
Proof.
  destruct f as [| | | | |d]; try discriminate.
  unfold validated. simpl. rewrite !andb_true_iff.
  intros (Hid & Hname & _). split.
  - destruct d; [discriminate | reflexivity].
  - unfold dict_mem in Hname.
    destruct (dict_get "name" d) as [shown|]; [|discriminate]. now exists shown.
Qed.

Lemma collect_loop_spec (files : list entry) (acc : list json) :
  collect_loop files acc
  = (flat_map file_trace files, Return (acc ++ accepted files)).
Proof.
  revert acc. induction files as [|[name file] rest IH]; intros acc.
  - simpl. unfold ret. now rewrite app_nil_r.
  - cbn [collect_loop flat_map]. unfold accepted. cbn [flat_map snd].
    fold (accepted rest). unfold file_trace at 1. cbn [fst snd].
    destruct (load_fragment_cases name file) as (t & r & E & Hr).
    rewrite E, io_bind_return. destruct r as [f|].
    + destruct Hr as (-> & V & _). rewrite V.
      destruct (validated_usable f V) as (T & shown & Hs).
      rewrite T, Hs. unfold lift. rewrite io_bind_return.
      unfold print. rewrite io_bind_return, IH. cbn [fst snd].
      now rewrite <- !app_assoc.
    + rewrite IH. cbn [fst snd].
      destruct file as [v|e]; [|now rewrite app_nil_l].
      destruct (validated v) eqn:V; [|now rewrite app_nil_l].
      exfalso. destruct v as [| | | | |d]; try discriminate.
      destruct (load_fragment_dict_valid name d V) as (id & _ & E').
      rewrite E' in E. discriminate.
Qed.

Lemma collect_fragments_spec (dir : option (list entry)) :
  exists t, collect_fragments dir = (map Print t, Return (collected dir)).
Proof.
  destruct dir as [entries|].
  - cbn [collect_fragments collected]. unfold print.
    rewrite !io_bind_return, collect_loop_spec. cbn [fst snd app].
    assert (H : forall files, exists t, flat_map file_trace files = map Print t).
    { induction files as [|[name file] rest [t' IH]]; [now exists []|].
      cbn [flat_map]. rewrite IH. unfold file_trace. cbn [fst snd].
      destruct (load_fragment_cases name file) as (t & r & E & Hr). rewrite E.
      destruct r as [f|].
      - destruct Hr as (_ & V & id & ->).
        destruct (validated_usable f V) as (_ & shown & ->).
        destruct (py_eq id (JStr (stem name))).
        + now exists (OkFragment name shown :: t').
        + now exists (WarnIdMismatch name id :: OkFragment name shown :: t').
      - destruct Hr as (l & -> & _). now exists (l :: t'). }
    destruct (H (json_files entries)) as (t & ->).
    now exists (Scanning :: Found (List.length (json_files entries)) :: t).
  - now exists [ErrNoSourceDir].
Qed.

(** ** main *)

Lemma main_after_collect (a : args) (env : environment) :
  exists t,
    collect_fragments (source_dir env)
      = (map Print t, Return (collected (source_dir env))) /\
    main a env
      = (map Print ([Rule; Title; RuleBlank] ++ t)
           ++ fst (after_collect a (now env) (collected (source_dir env))),
         snd (after_collect a (now env) (collected (source_dir env)))).
Proof.
  destruct (collect_fragments_spec (source_dir env)) as (t & E).
  exists t. split; [exact E|].
  unfold main. fold (after_collect a (now env)).
  unfold print at 1 2 3. rewrite !io_bind_return, E, io_bind_return.
  cbn [fst snd]. rewrite map_app. cbn [map app]. reflexivity.
Qed.

Lemma after_collect_none (a : args) (now : datetime) :
  after_collect a now [] = ([Print ErrNoValid], Exited 1).
Proof. reflexivity. Qed.

Lemma after_collect_validate (a : args) (now : datetime) (fs : list json) :
  fs <> [] -> validate a = true ->
  after_collect a now fs
  = ([Print (Summary (List.length fs)); Print ValidationComplete], Exited 0).
Proof.
  intros Hne Hv. unfold after_collect. rewrite Hv.
  destruct fs; [congruence | reflexivity].
Qed.

Lemma after_collect_raise (a : args) (now : datetime) (fs : list json) (e : exn) :
  fs <> [] -> validate a = false -> sort_fragments fs = Raise e ->
  after_collect a now fs = ([Print (Summary (List.length fs))], Raised e).
Proof.
  intros Hne Hv Hs. unfold after_collect. rewrite Hv, Hs.
  destruct fs; [congruence | reflexivity].
Qed.

Lemma after_collect_dry_run (a : args) (now : datetime) (fs out : list json) :
  fs <> [] -> validate a = false -> sort_fragments fs = Ok out ->
  dry_run a = true ->
  after_collect a now fs
  = (map Print
       [Summary (List.length fs); DryRunHeader; OutputPath;
        Templates (List.length out);
        Size (String.length (json_dumps (generate_profile now out)));
        PreviewHeader;
        Preview (preview (json_dumps (generate_profile now out)));
        Footer],
     Return tt).
Proof.
  intros Hne Hv Hs Hd. unfold after_collect. rewrite Hv, Hs, Hd.
  destruct fs; [congruence | reflexivity].
Qed.

Lemma after_collect_generate (a : args) (now : datetime) (fs out : list json) :
  fs <> [] -> validate a = false -> sort_fragments fs = Ok out ->
  dry_run a = false ->
  after_collect a now fs
  = ([Print (Summary (List.length fs));
      MkdirOutputParent;
      WriteOutput (json_dumps (generate_profile now out) ++ newline)%string;
      Print Generated;
      Print (Templates (List.length out));
      Print (Size (String.length (json_dumps (generate_profile now out))));
      Print Footer],
     Return tt).
Proof.
  intros Hne Hv Hs Hd. unfold after_collect. rewrite Hv, Hs, Hd.
  destruct fs; [congruence | reflexivity].
Qed.

Lemma written_app (t1 t2 : list event) :
  written (t1 ++ t2)
  = match written t2 with Some c => Some c | None => written t1 end.
Proof.
  induction t1 as [|e t1 IH]; simpl; [now destruct (written t2)|].
  rewrite IH. destruct (written t2); reflexivity.
Qed.

Lemma written_prints (t : list line) : written (map Print t) = None.
Proof. induction t as [|l t IH]; simpl; [reflexivity | now rewrite IH]. Qed.

Lemma touched_app (t1 t2 : list event) :
  touched (t1 ++ t2) = touched t1 || touched t2.
Proof. apply existsb_app. Qed.

Lemma touched_prints (t : list line) : touched (map Print t) = false.
Proof. induction t as [|l t IH]; simpl; [reflexivity | exact IH]. Qed.

(** Whatever [sorted] returns is a rearrangement of its argument. *)
Lemma insertM_perm {A : Type} (ltM : A -> A -> result bool) (x : A)
    (l r : list A) :
  insertM ltM x l = Ok r -> Permutation r (x :: l).
Proof.
  revert r. induction l as [|y l IH]; simpl; intros r.
  - now intros [= <-].
  - destruct (ltM y x) as [[|]|e]; simpl; try discriminate.
    + destruct (insertM ltM x l) as [r'|e]; simpl; [|discriminate].
      intros [= <-]. rewrite (IH r' eq_refl). apply perm_swap.
    + now intros [= <-].
Qed.

Lemma isortM_perm {A : Type} (ltM : A -> A -> result bool) (l r : list A) :
  isortM ltM l = Ok r -> Permutation r l.
Proof.
  revert r. induction l as [|x l IH]; simpl; intros r.
  - now intros [= <-].
  - destruct (isortM ltM l) as [s|e]; simpl; [|discriminate].
    intros H. apply insertM_perm in H. rewrite H.
    constructor. now apply IH.
Qed.

Lemma mapM_decorate {A K : Type} (key : A -> result K) (l : list A)
    (ks : list (K * A)) :
  mapM (fun x => k <- key x ;; Ok (k, x)) l = Ok ks -> map snd ks = l.
Proof.
  revert ks. induction l as [|x l IH]; simpl; intros ks.
  - now intros [= <-].
  - destruct (key x) as [k|e]; simpl; [|discriminate].
    destruct (mapM _ l) as [ks'|e]; simpl; [|discriminate].
    intros [= <-]. simpl. now rewrite (IH ks' eq_refl).
Qed.

Lemma sorted_by_perm {A K : Type} (key : A -> result K)
    (lt : K -> K -> result bool) (l r : list A) :
  sorted_by key lt l = Ok r -> Permutation r l.
Proof.
  unfold sorted_by.
  destruct (mapM _ l) as [ks|e] eqn:E; simpl; [|discriminate].
  destruct (isortM _ ks) as [s|e] eqn:E'; simpl; [|discriminate].
  intros [= <-]. rewrite <- (mapM_decorate _ _ _ E).
  apply Permutation_map. eapply isortM_perm. exact E'.
Qed.

Lemma accepted_In (files : list entry) (f : json) :
  In f (accepted files) <->
  validated f = true /\ exists name, In (name, Ok f) files.
Proof.
  unfold accepted. rewrite in_flat_map. split.
  - intros ([name [v|e]] & Hin & Hf); simpl in Hf; [|contradiction].
    destruct (validated v) eqn:V; [|contradiction].
    destruct Hf as [<-|[]]. split; [exact V | now exists name].
  - intros (V & name & Hin). exists (name, Ok f). split; [exact Hin|].
    simpl. rewrite V. now left.
Qed.

Lemma json_files_In (entries : list entry) (e : entry) :
  In e (json_files entries) <->
  In e entries /\ endswith ".json" (fst e) = true
  /\ startswith "_" (fst e) = false.
Proof.
  unfold json_files. rewrite isort_In, filter_In. unfold is_candidate.
  rewrite andb_true_iff, negb_true_iff. tauto.
Qed.

Lemma collected_validated (dir : option (list entry)) (f : json) :
  In f (collected dir) -> validated f = true.
Proof.
  destruct dir as [entries|]; simpl; [|contradiction].
  intros H. now apply accepted_In in H.
Qed.

Lemma Some_string_inj (x y : string) : Some x = Some y -> x = y.
Proof. now intros [= ->]. Qed.

(** The only write of a run is the serialized profile of the sorted
    collected fragments. *)
Lemma main_written (a : args) (env : environment) (content : string) :
  written (fst (main a env)) = Some content ->
  exists out,
    sort_fragments (collected (source_dir env)) = Ok out /\
    content = (json_dumps (generate_profile (now env) out) ++ newline)%string /\
    validate a = false /\ dry_run a = false.
Proof.
  destruct (main_after_collect a env) as (t & _ & ->). cbn [fst].
  rewrite written_app, written_prints.
  destruct (collected (source_dir env)) as [|f fs] eqn:C.
  { rewrite after_collect_none. discriminate. }
  assert (Hne : f :: fs <> []) by discriminate.
  destruct (validate a) eqn:Hv.
  { rewrite after_collect_validate by assumption. discriminate. }
  destruct (sort_fragments (f :: fs)) as [out|e] eqn:Hs.
  2:{ rewrite (after_collect_raise a _ _ e) by assumption. discriminate. }
  destruct (dry_run a) eqn:Hd.
  { rewrite (after_collect_dry_run a _ _ out) by assumption.
    cbn [fst]. rewrite written_prints. discriminate. }
  rewrite (after_collect_generate a _ _ out) by assumption.
  cbn [fst written]. intros H. apply Some_string_inj in H. subst content.
  exists out. repeat split; assumption.
Qed.

(** ** The Loader *)

(** C3: [load_fragment] always returns, so one file cannot stop the
    loop over the others.  It returns a fragment only if the file parsed
    to a dict that has the five required keys.  When it returns none it
    has printed exactly one ERROR line, which names the file: on a parse
    failure the line with the parse error; when required keys are
    missing from the dict, the line with exactly the missing names, in
    the order of [required_fields]. *)
Theorem load_fragment_validates (name : string) (file : result json) :
  (exists t r, load_fragment name file = (t, Return r)) /\
  (forall t f, load_fragment name file = (t, Return (Some f)) ->
     file = Ok f /\ validated f = true /\
     forall k, In k required_fields -> py_contains k f = Ok true) /\
  (forall t, load_fragment name file = (t, Return None) ->
     exists l, t = [Print l] /\ line_severity l = Some ERROR /\
               line_file l = Some name) /\
  (forall msg, file = Raise (JSONDecodeError msg) ->
     load_fragment name file = ([Print (ErrInvalidJSON name msg)], Return None)) /\
  (forall d, file = Ok (JObj d) -> validated (JObj d) = false ->
     exists missing,
       missing <> [] /\
       (forall k, In k missing <-> In k required_fields /\ dict_get k d = None) /\
       load_fragment name file = ([Print (ErrMissing name missing)], Return None)) /\
  (forall v missing, file = Ok v ->
     missing_fields required_fields v = Ok missing -> missing <> [] ->
     load_fragment name file = ([Print (ErrMissing name missing)], Return None)) /\
  (forall t rest acc, load_fragment name file = (t, Return None) ->
     collect_loop ((name, file) :: rest) acc
     = (t ++ fst (collect_loop rest acc), snd (collect_loop rest acc))).
Proof.
  destruct (load_fragment_cases name file) as (t0 & r0 & E & Hr).
  split; [now exists t0, r0|].
  split.
  { intros t f H. rewrite E in H. injection H as <- ->.
    destruct Hr as (Hfile & V & _). repeat split; auto.
    intros k Hk. destruct f as [| | | | |d]; try discriminate.
    unfold validated in V. rewrite forallb_forall in V.
    simpl. now rewrite (V k Hk). }
  split.
  { intros t H. rewrite E in H. injection H as <- ->. exact Hr. }
  split.
  { intros msg ->. reflexivity. }
  split.
  { intros d -> V.
    exists (filter (fun k => negb (dict_mem k d)) required_fields).
    split; [|split].
    - intros H. apply validated_no_missing in H. congruence.
    - apply missing_fields_exact.
    - now apply load_fragment_dict_missing. }
  split.
  { intros v missing -> Hm Hne. rewrite load_fragment_ok, Hm.
    destruct missing; [congruence | reflexivity]. }
  intros t rest acc H. cbn [collect_loop]. rewrite H, io_bind_return.
  reflexivity.
Qed.

(** A file that lacks only [variables] is rejected with exactly that
    name. *)
Lemma load_fragment_lacking_variables :
  load_fragment "docker.json" (Ok lacking_variables)
    = ([Print (ErrMissing "docker.json" ["variables"])], Return None) /\
  validated lacking_variables = false /\
  exists missing,
    missing <> [] /\
    (forall k, In k missing <->
               In k required_fields /\
               dict_get k [("id", JStr "docker"); ("name", JStr "Docker");
                           ("description", JStr "d");
                           ("category", JStr "DevOps")] = None) /\
    load_fragment "docker.json" (Ok lacking_variables)
      = ([Print (ErrMissing "docker.json" missing)], Return None).
Proof.
  split; [reflexivity|]. split; [reflexivity|].
  apply (load_fragment_validates "docker.json" (Ok lacking_variables));
    reflexivity.
Defined.

Lemma accepted_cons_valid (name : string) (f : json) (rest : list entry) :
  validated f = true -> accepted ((name, Ok f) :: rest) = f :: accepted rest.
Proof. intros V. unfold accepted. cbn [flat_map snd]. now rewrite V. Qed.

Lemma py_eq_false_str (x : json) (c : string) :
  x <> JStr c -> py_eq x (JStr c) = false.
Proof.
  intros H. destruct (py_eq x (JStr c)) eqn:E; [|reflexivity].
  apply py_eq_to_str in E. contradiction.
Qed.

(** C6: a file that parses to a dict with the five required keys and
    whose [id] is not the stem of its name makes [load_fragment] print
    one WARN line and return the very dict it read; the loop keeps it,
    so it is among the collected fragments and in every profile the run
    writes. *)
Theorem load_fragment_id_mismatch (name : string) (d : dict) (id : json)
    (Hid : dict_get "id" d = Some id)
    (Hvalid : validated (JObj d) = true)
    (Hmismatch : id <> JStr (stem name)) :
  load_fragment name (Ok (JObj d))
    = ([Print (WarnIdMismatch name id)], Return (Some (JObj d))) /\
  line_severity (WarnIdMismatch name id) = Some WARN /\
  (forall rest acc, exists t,
     collect_loop ((name, Ok (JObj d)) :: rest) acc
     = (Print (WarnIdMismatch name id) :: t,
        Return (acc ++ JObj d :: accepted rest))) /\
  (forall entries, In (name, Ok (JObj d)) entries ->
     is_candidate (name, Ok (JObj d)) = true ->
     In (JObj d) (collected (Some entries))) /\
  (forall a env entries content,
     source_dir env = Some entries ->
     In (name, Ok (JObj d)) entries ->
     is_candidate (name, Ok (JObj d)) = true ->
     written (fst (main a env)) = Some content ->
     exists out,
       content = (json_dumps (generate_profile (now env) out) ++ newline)%string
       /\ In (JObj d) out).
Proof.
  assert (L : load_fragment name (Ok (JObj d))
              = ([Print (WarnIdMismatch name id)], Return (Some (JObj d)))).
  { destruct (load_fragment_dict_valid name d Hvalid) as (id' & Hid' & E).
    rewrite Hid in Hid'. injection Hid' as <-.
    now rewrite (py_eq_false_str id _ Hmismatch) in E. }
  assert (C : forall entries, In (name, Ok (JObj d)) entries ->
                is_candidate (name, Ok (JObj d)) = true ->
                In (JObj d) (collected (Some entries))).
  { intros entries Hin Hc. cbn [collected]. apply accepted_In.
    split; [exact Hvalid|]. exists name. apply json_files_In.
    unfold is_candidate in Hc. apply andb_true_iff in Hc.
    destruct Hc as (H1 & H2). apply negb_true_iff in H2. auto. }
  split; [exact L|]. split; [reflexivity|]. split; [|split; [exact C|]].
  - intros rest acc.
    rewrite collect_loop_spec, (accepted_cons_valid name _ rest Hvalid).
    cbn [flat_map]. unfold file_trace at 1. cbn [fst snd]. rewrite L.
    eexists. cbn [app]. reflexivity.
  - intros a env entries content Hdir Hin Hc Hw.
    destruct (main_written a env content Hw) as (out & Hs & -> & _).
    exists out. split; [reflexivity|].
    apply sorted_by_perm in Hs.
    eapply Permutation_in; [apply Permutation_sym; exact Hs|].
    rewrite Hdir. now apply C.
Qed.

(** foo.json with the id bar: warned about, accepted, written. *)
Lemma load_fragment_foo_bar :
  load_fragment "foo.json" (Ok bar)
    = ([Print (WarnIdMismatch "foo.json" (JStr "bar"))], Return (Some bar)) /\
  exists content,
    written (fst (main {| validate := false; dry_run := false |}
                       {| source_dir := Some [("foo.json", Ok bar)];
                          now := at_noon |}))
      = Some content /\
    content = (json_dumps (generate_profile at_noon [bar]) ++ newline)%string.
Proof.
  split.
  - refine (proj1 (load_fragment_id_mismatch "foo.json" _ (JStr "bar") _ _ _)).
    + reflexivity.
    + reflexivity.
    + intros H. vm_compute in H. discriminate.
  - eexists. split; reflexivity.
Defined.

Lemma validated_required (f : json) :
  validated f = true <-> has_required_fields f.
Proof.
  unfold has_required_fields. split.
  - destruct f as [| | | | |d]; try discriminate. intros V.
    exists d. split; [reflexivity|]. intros k Hk.
    unfold validated in V. rewrite forallb_forall in V.
    specialize (V k Hk). unfold dict_mem in V.
    now destruct (dict_get k d).
  - intros (d & -> & H). unfold validated. apply forallb_forall.
    intros k Hk. specialize (H k Hk). unfold dict_mem.
    now destruct (dict_get k d).
Qed.

(** C9: whatever [load_fragment] returns is a dict with the five
    required keys.  A parsed value that is no dict is rejected with one
    ERROR line, also when the membership test finds every field in it,
    as in the list of the five names or a string that contains them:
    then [data["id"]] raises [TypeError], which the handler turns into
    the ERROR line.  Hence every collected fragment, and every entry of
    [templates] in a profile the run writes, is such a dict. *)
Theorem load_fragment_returns_dicts (name : string) (file : result json) :
  (forall t f, load_fragment name file = (t, Return (Some f)) ->
     file = Ok f /\ has_required_fields f) /\
  (forall v, file = Ok v -> is_dict v = false ->
     exists l, load_fragment name file = ([Print l], Return None) /\
               line_severity l = Some ERROR) /\
  (missing_fields required_fields five_names = Ok [] /\
   load_fragment name (Ok five_names)
     = ([Print (ErrOther name TypeError)], Return None)) /\
  (missing_fields required_fields names_in_a_string = Ok [] /\
   load_fragment name (Ok names_in_a_string)
     = ([Print (ErrOther name TypeError)], Return None)) /\
  (forall dir f, In f (collected dir) -> has_required_fields f) /\
  (forall a env content,
     written (fst (main a env)) = Some content ->
     exists out,
       content = (json_dumps (generate_profile (now env) out) ++ newline)%string
       /\ py_getitem (generate_profile (now env) out) "templates"
          = Ok (JArr out)
       /\ Forall has_required_fields out).
Proof.
  split.
  { intros t f H.
    destruct (load_fragment_cases name file) as (t0 & r0 & E & Hr).
    rewrite E in H. injection H as <- ->. destruct Hr as (Hf & V & _).
    split; [exact Hf | now apply validated_required]. }
  split.
  { intros v -> D. destruct (load_fragment_non_dict name v D) as (l & E & S & _).
    now exists l. }
  split; [split; reflexivity|]. split; [split; reflexivity|].
  split.
  { intros dir f H. now apply validated_required, (collected_validated dir). }
  intros a env content Hw.
  destruct (main_written a env content Hw) as (out & Hs & -> & _).
  exists out. split; [reflexivity|]. split; [reflexivity|].
  apply sorted_by_perm in Hs. apply Forall_forall. intros f Hf.
  apply validated_required, (collected_validated (source_dir env)).
  eapply Permutation_in; eassumption.
Qed.

(** A file that holds the number 3 is rejected. *)
Lemma load_fragment_rejects_a_number :
  exists l, load_fragment "n.json" (Ok (JInt 3)) = ([Print l], Return None) /\
            line_severity l = Some ERROR.
Proof.
  apply (proj1 (proj2 (load_fragment_returns_dicts "n.json" (Ok (JInt 3))))
           (JInt 3)); reflexivity.
Defined.

(** ** The Collector *)

Lemma Permutation_filter_same {A : Type} (p : A -> bool) (l1 l2 : list A) :
  Permutation l1 l2 -> Permutation (filter p l1) (filter p l2).
Proof.
  induction 1 as [|x l1 l2 _ IH|x y l|l1 l2 l3 _ IH1 _ IH2]; simpl.
  - constructor.
  - destruct (p x); [now constructor | exact IH].
  - destruct (p x), (p y); try reflexivity. apply perm_swap.
  - now transitivity (filter p l2).
Qed.

(** The candidates of a directory have pairwise different names. *)
Lemma candidates_NoDup (entries : list entry) :
  NoDup (map fst entries) -> NoDup (map fst (filter is_candidate entries)).
Proof.
  intros Hnd. induction entries as [|e entries IH]; cbn [filter map].
  - constructor.
  - cbn [map] in Hnd. apply NoDup_cons_iff in Hnd. destruct Hnd as (Hfresh & Hnd).
    destruct (is_candidate e); cbn [map]; [|now apply IH].
    apply NoDup_cons_iff. split; [|now apply IH].
    intros Hin. apply Hfresh. apply in_map_iff in Hin.
    destruct Hin as (e' & Hname & Hin). apply filter_In in Hin.
    apply in_map_iff. exists e'. tauto.
Qed.

Lemma json_files_sorted (entries : list entry) :
  StronglySorted (fun e1 e2 => String.leb (fst e1) (fst e2) = true)
                 (json_files entries).
Proof.
  assert (H : StronglySorted (may_precede path_lt) (json_files entries)).
  { apply (isort_sorted path_lt fst String.ltb).
    - reflexivity.
    - apply string_ltb_irrefl.
    - apply string_ltb_trans.
    - apply string_ltb_connex. }
  induction H as [|e l _ IH F]; constructor; [exact IH|].
  eapply Forall_impl; [|exact F]. intros e' He'.
  apply string_leb_ltb. exact He'.
Qed.

(** The candidates do not depend on the order in which the directory is
    listed. *)
Lemma json_files_perm (entries entries' : list entry) :
  NoDup (map fst entries) -> Permutation entries entries' ->
  json_files entries' = json_files entries.
Proof.
  intros Hnd HP. unfold json_files. symmetry.
  apply (isort_perm_invariant path_lt fst String.ltb).
  - reflexivity.
  - apply string_ltb_irrefl.
  - apply string_ltb_trans.
  - apply string_ltb_connex.
  - now apply candidates_NoDup.
  - now apply Permutation_filter_same.
Qed.

Lemma collect_fragments_some (entries : list entry) :
  collect_fragments (Some entries)
  = (Print Scanning :: Print (Found (List.length (json_files entries)))
       :: flat_map file_trace (json_files entries),
     Return (accepted (json_files entries))).
Proof.
  cbn [collect_fragments]. unfold print.
  now rewrite !io_bind_return, collect_loop_spec.
Qed.

(** Every line printed for a file names that file. *)
Lemma file_trace_names (e : entry) (l : line) :
  In (Print l) (file_trace e) -> line_file l = Some (fst e).
Proof.
  destruct e as [name file]. unfold file_trace. cbn [fst snd].
  destruct (load_fragment_cases name file) as (t & r & E & Hr). rewrite E.
  destruct r as [f|].
  - destruct Hr as (_ & V & id & ->).
    destruct (validated_usable f V) as (_ & shown & ->).
    destruct (py_eq id (JStr (stem name))); simpl;
      intros H; repeat (destruct H as [[= <-]|H]; [reflexivity|]);
      contradiction.
  - destruct Hr as (l' & -> & _ & Hf). simpl.
    intros [[= <-]|[]]. exact Hf.
Qed.

(** C7: the candidates are exactly the entries of the directory whose
    name ends in [.json] and does not start with an underscore, in
    ascending order of their names; these alone are loaded and
    reported.  The run of the Collector is therefore the same for two
    directories that differ only in other entries (such as a malformed
    [_draft.json]), no printed line names such an entry, and the run
    does not depend on the order in which the file system lists the
    directory. *)
Theorem collect_fragments_candidates (entries : list entry) :
  (forall e, In e (json_files entries) <->
     In e entries /\ endswith ".json" (fst e) = true
     /\ startswith "_" (fst e) = false) /\
  Permutation (json_files entries) (filter is_candidate entries) /\
  StronglySorted (fun e1 e2 => String.leb (fst e1) (fst e2) = true)
                 (json_files entries) /\
  collect_fragments (Some entries)
    = (Print Scanning :: Print (Found (List.length (json_files entries)))
         :: flat_map file_trace (json_files entries),
       Return (accepted (json_files entries))) /\
  (forall entries',
     filter is_candidate entries' = filter is_candidate entries ->
     collect_fragments (Some entries') = collect_fragments (Some entries)) /\
  (forall l name,
     In (Print l) (fst (collect_fragments (Some entries))) ->
     line_file l = Some name ->
     endswith ".json" name = true /\ startswith "_" name = false) /\
  (forall entries',
     NoDup (map fst entries) -> Permutation entries entries' ->
     collect_fragments (Some entries') = collect_fragments (Some entries)).
Proof.
  split; [apply json_files_In|].
  split; [apply isort_perm|].
  split; [apply json_files_sorted|].
  split; [apply collect_fragments_some|].
  split.
  { intros entries' H. rewrite !collect_fragments_some.
    unfold json_files. now rewrite H. }
  split.
  { intros l name Hin Hname. rewrite collect_fragments_some in Hin.
    cbn [fst] in Hin.
    destruct Hin as [[= <-]|[[= <-]|Hin]]; try discriminate.
    apply in_flat_map in Hin. destruct Hin as (e & He & Hl).
    apply file_trace_names in Hl. rewrite Hname in Hl. injection Hl as ->.
    apply json_files_In in He. tauto. }
  intros entries' Hnd HP. rewrite !collect_fragments_some.
  now rewrite (json_files_perm entries entries' Hnd HP).
Qed.

(** A directory with a malformed [_draft.json], listed in two orders. *)
Lemma collect_fragments_listing :
  collect_fragments (Some listing)
    = ([Print Scanning; Print (Found 2);
        Print (OkFragment "docker.json" (JStr "Docker"));
        Print (OkFragment "openai.json" (JStr "OpenAI"))],
       Return [docker; openai]) /\
  collect_fragments (Some (rev listing)) = collect_fragments (Some listing) /\
  collect_fragments (Some [("openai.json", Ok openai);
                           ("docker.json", Ok docker)])
    = collect_fragments (Some listing).
Proof.
  split; [reflexivity|]. split.
  - apply (proj2 (proj2 (proj2 (proj2 (proj2 (proj2
             (collect_fragments_candidates listing))))))).
    + repeat constructor; simpl; intuition discriminate.
    + apply Permutation_rev.
  - apply (proj1 (proj2 (proj2 (proj2 (proj2
             (collect_fragments_candidates listing)))))).
    reflexivity.
Defined.

(** ** The Runner *)

Lemma accepted_app (l1 l2 : list entry) :
  accepted (l1 ++ l2) = accepted l1 ++ accepted l2.
Proof. unfold accepted. apply flat_map_app. Qed.

(** A file that fails to load takes nothing away from the others. *)
Lemma accepted_insert_rejected (e : entry) (l : list entry) :
  accepted [e] = [] -> accepted (insert path_lt e l) = accepted l.
Proof.
  intros E. induction l as [|y l IH]; cbn [insert].
  - now rewrite E.
  - destruct (path_lt y e).
    + change (y :: insert path_lt e l) with ([y] ++ insert path_lt e l).
      change (y :: l) with ([y] ++ l). rewrite !accepted_app. now rewrite IH.
    + change (e :: y :: l) with ([e] ++ y :: l).
      rewrite accepted_app, E. reflexivity.
Qed.

Lemma collected_with_failure (name : string) (file : result json)
    (entries : list entry) :
  (forall f, file = Ok f -> validated f = false) ->
  collected (Some ((name, file) :: entries)) = collected (Some entries).
Proof.
  intros H. cbn [collected]. unfold json_files. cbn [filter].
  destruct (is_candidate (name, file)); [|reflexivity].
  cbn [isort]. apply accepted_insert_rejected.
  unfold accepted. cbn [flat_map snd]. destruct file as [f|e]; [|reflexivity].
  now rewrite (H f eq_refl).
Qed.

Lemma collected_string_ids_sorted (fs : list json) :
  Forall (fun f => string_id f = true) fs ->
  exists out, sort_fragments fs = Ok out.
Proof. intros H. eexists. now apply sort_fragments_string_ids. Qed.

(** C4, as stated, fails: with numbered.json (id 5) and openai.json
    two valid fragments are collected, and the run still ends with
    status 1 and without output, because [sorted] raises [TypeError]
    and nobody catches it: zero valid fragments is not the only way for
    a run to end fatally. *)
Lemma main_fatal_with_valid_fragments :
  collected (source_dir mixed_ids) = [numbered; openai] /\
  main generate mixed_ids
    = (map Print [Rule; Title; RuleBlank; Scanning; Found 2;
                  WarnIdMismatch "numbered.json" (JInt 5);
                  OkFragment "numbered.json" (JStr "Five");
                  OkFragment "openai.json" (JStr "OpenAI");
                  Summary 2],
       Raised TypeError) /\
  exit_status (snd (main generate mixed_ids)) = 1 /\
  written (fst (main generate mixed_ids)) = None.
Proof. repeat split. Qed.

(** C4, amended: when no valid fragment is collected, as when the
    source directory does not exist, the run prints the ERROR line
    last, ends with status 1, and neither writes nor touches the output
    file.  When at least one is collected, a validate-only run ends with
    status 0, and so does every other run whose collected fragments all
    have string ids.  A file that fails to load changes nothing but the
    set of collected fragments. *)
Theorem main_exit_status (a : args) (env : environment) :
  (source_dir env = None -> collected (source_dir env) = []) /\
  (collected (source_dir env) = [] ->
     (exists t, main a env = (map Print (t ++ [ErrNoValid]), Exited 1)) /\
     line_severity ErrNoValid = Some ERROR /\
     exit_status (snd (main a env)) = 1 /\
     touched (fst (main a env)) = false /\
     written (fst (main a env)) = None) /\
  (collected (source_dir env) <> [] -> validate a = true ->
     snd (main a env) = Exited 0 /\ touched (fst (main a env)) = false) /\
  (collected (source_dir env) <> [] -> validate a = false ->
     Forall (fun f => string_id f = true) (collected (source_dir env)) ->
     snd (main a env) = Return tt /\ exit_status (snd (main a env)) = 0) /\
  (forall entries, source_dir env = Some entries ->
     collected (source_dir env) = accepted (json_files entries) /\
     forall name file,
       (forall f, file = Ok f -> validated f = false) ->
       collected (Some ((name, file) :: entries)) = collected (source_dir env)).
Proof.
  destruct (main_after_collect a env) as (t & _ & E).
  split; [now intros ->|].
  split.
  { intros C. rewrite E, C, after_collect_none. cbn [fst snd exit_status].
    repeat split.
    - exists ([Rule; Title; RuleBlank] ++ t). now rewrite (map_app _ _ [ErrNoValid]).
    - now rewrite touched_app, touched_prints.
    - now rewrite written_app, written_prints. }
  split.
  { intros C V. rewrite E, (after_collect_validate a _ _ C V). cbn [fst snd].
    split; [reflexivity|]. now rewrite touched_app, touched_prints. }
  split.
  { intros C V Hids. rewrite E.
    destruct (collected_string_ids_sorted _ Hids) as (out & Hs).
    destruct (dry_run a) eqn:D.
    - now rewrite (after_collect_dry_run a _ _ out C V Hs D).
    - now rewrite (after_collect_generate a _ _ out C V Hs D). }
  intros entries ->. split; [reflexivity|].
  intros name file H. now apply collected_with_failure.
Qed.

(** A missing directory ends the run with status 1 and no output; the
    directory [listing] gives status 0. *)
Lemma main_exit_status_examples :
  (exit_status (snd (main generate no_directory)) = 1 /\
   touched (fst (main generate no_directory)) = false /\
   written (fst (main generate no_directory)) = None) /\
  (snd (main generate two_fragments) = Return tt /\
   exit_status (snd (main generate two_fragments)) = 0).
Proof.
  split.
  - apply (proj1 (proj2 (main_exit_status generate no_directory))).
    reflexivity.
  - apply (proj1 (proj2 (proj2 (proj2
            (main_exit_status generate two_fragments))))).
    + vm_compute. discriminate.
    + reflexivity.
    + vm_compute. repeat constructor.
Defined.

(** ** Two runs *)

Lemma generate_profile_same_date (n1 n2 : datetime) (fs : list json) :
  same_date n1 n2 -> generate_profile n1 fs = generate_profile n2 fs.
Proof.
  intros (Hy & Hm & Hd). unfold generate_profile, strftime_Ymd.
  now rewrite Hy, Hm, Hd.
Qed.

Lemma after_collect_same_date (a : args) (n1 n2 : datetime) (fs : list json) :
  same_date n1 n2 -> after_collect a n1 fs = after_collect a n2 fs.
Proof.
  intros H. destruct fs as [|f fs]; [reflexivity|].
  assert (Hne : f :: fs <> []) by discriminate.
  destruct (validate a) eqn:V.
  { now rewrite !after_collect_validate. }
  destruct (sort_fragments (f :: fs)) as [out|e] eqn:S.
  2:{ now rewrite !(after_collect_raise a _ _ e). }
  destruct (dry_run a) eqn:D.
  - rewrite !(after_collect_dry_run a _ _ out) by assumption.
    now rewrite (generate_profile_same_date n1 n2 out H).
  - rewrite !(after_collect_generate a _ _ out) by assumption.
    now rewrite (generate_profile_same_date n1 n2 out H).
Qed.

Lemma collect_fragments_same_directory (d1 d2 : option (list entry)) :
  same_directory d1 d2 -> collect_fragments d1 = collect_fragments d2.
Proof.
  destruct d1 as [e1|], d2 as [e2|]; cbn [same_directory]; try tauto.
  intros (Hnd & HP). rewrite !collect_fragments_some.
  now rewrite (json_files_perm e1 e2 Hnd HP).
Qed.

(** C8: two runs in the same mode, on the same directory with the same
    files and on the same calendar date, do the same: they print the
    same lines, end with the same status, and write the same text to
    the output file, or both write nothing; neither the time of day
    nor the order in which the directory is listed matters. *)
Theorem main_reproducible (a : args) (env1 env2 : environment)
    (Hdir : same_directory (source_dir env1) (source_dir env2))
    (Hdate : same_date (now env1) (now env2)) :
  main a env1 = main a env2 /\
  written (fst (main a env1)) = written (fst (main a env2)).
Proof.
  assert (E : main a env1 = main a env2).
  { destruct (main_after_collect a env1) as (t1 & C1 & ->).
    destruct (main_after_collect a env2) as (t2 & C2 & ->).
    pose proof (collect_fragments_same_directory _ _ Hdir) as HC.
    rewrite C1, C2 in HC. injection HC as Ht Hc.
    rewrite !map_app, Ht, Hc.
    now rewrite (after_collect_same_date a _ _ _ Hdate). }
  split; [exact E | now rewrite E].
Qed.

(** The directory [listing] read at noon, and read backwards in the
    evening of the same day. *)
Lemma main_reproducible_example :
  main generate two_fragments
    = main generate {| source_dir := Some (rev listing); now := in_the_evening |} /\
  written (fst (main generate two_fragments))
    = written (fst (main generate
                      {| source_dir := Some (rev listing);
                         now := in_the_evening |})).
Proof.
  apply (main_reproducible generate two_fragments
           {| source_dir := Some (rev listing); now := in_the_evening |}).
  - split.
    + repeat constructor; simpl; intuition discriminate.
    + apply Permutation_rev.
  - repeat split.
Defined.

(** ** The Catalog Builder *)

Lemma below_checked (p : N -> bool) (bound : nat) (n : N) :
  forallb (fun k => p (N.of_nat k)) (seq 0 bound) = true ->
  (N.to_nat n < bound)%nat -> p n = true.
Proof.
  intros A H. rewrite forallb_forall in A.
  rewrite <- (N2Nat.id n). apply A. apply in_seq. lia.
Qed.

Lemma four_digits_read (n : N) :
  (n <= 9999)%N ->
  String.length (four_digits n) = 4%nat /\
  read_digits (four_digits n) 0 = Some n.
Proof.
  intros H. split; [reflexivity|].
  assert (A : reads_as (four_digits n) n = true).
  { apply (below_checked (fun k => reads_as (four_digits k) k) (100 * 100)).
    - vm_compute. reflexivity.
    - lia. }
  unfold reads_as in A.
  destruct (read_digits (four_digits n) 0) as [k|]; [|discriminate].
  apply N.eqb_eq in A. now subst.
Qed.

Lemma two_digits_read (n : N) :
  (n <= 99)%N ->
  String.length (two_digits n) = 2%nat /\
  read_digits (two_digits n) 0 = Some n.
Proof.
  intros H. split; [reflexivity|].
  assert (A : reads_as (two_digits n) n = true).
  { apply (below_checked (fun k => reads_as (two_digits k) k) 100).
    - vm_compute. reflexivity.
    - lia. }
  unfold reads_as in A.
  destruct (read_digits (two_digits n) 0) as [k|]; [|discriminate].
  apply N.eqb_eq in A. now subst.
Qed.

(** C5: the profile is the dict with the six keys in this order, the
    fixed literals, [lastUpdated] the date of [now] written as four
    digits of the year, two of the month and two of the day with
    hyphens between, and [templates] the list it was given, element by
    element.  So each entry of [templates] passes the Loader's check
    again whenever it passed before. *)
Theorem generate_profile_envelope (now : datetime) (fragments : list json)
    (Hdate : valid_date now) :
  generate_profile now fragments
    = JObj [("version", JStr "1.0.0");
            ("lastUpdated", JStr (strftime_Ymd now));
            ("author", JStr "TCM Community");
            ("description", JStr "Terminal Context Manager - Profile Templates & Environment Variables Dictionary");
            ("repository", JStr "https://github.com/ZhiZeYi/terminal-context-template");
            ("templates", JArr fragments)] /\
  (exists y m d,
     strftime_Ymd now = (y ++ "-" ++ m ++ "-" ++ d)%string /\
     String.length y = 4%nat /\ read_digits y 0 = Some (year now) /\
     String.length m = 2%nat /\ read_digits m 0 = Some (month now) /\
     String.length d = 2%nat /\ read_digits d 0 = Some (day now)) /\
  py_getitem (generate_profile now fragments) "templates" = Ok (JArr fragments) /\
  (forall f, In f fragments -> validated f = true ->
     missing_fields required_fields f = Ok [] /\ has_required_fields f).
Proof.
  destruct Hdate as (Hy & Hm & Hd).
  split; [reflexivity|]. split; [|split; [reflexivity|]].
  - exists (four_digits (year now)), (two_digits (month now)),
      (two_digits (day now)).
    destruct (four_digits_read (year now)) as (? & ?); [lia|].
    destruct (two_digits_read (month now)) as (? & ?); [lia|].
    destruct (two_digits_read (day now)) as (? & ?); [lia|].
    repeat split; assumption.
  - intros f _ V. split; [|now apply validated_required].
    destruct f as [| | | | |d]; try discriminate.
    rewrite missing_fields_dict. f_equal. now apply validated_no_missing.
Qed.

Lemma generate_profile_at_noon :
  strftime_Ymd at_noon = "2024-03-07" /\
  py_getitem (generate_profile at_noon [openai; docker]) "templates"
    = Ok (JArr [openai; docker]) /\
  (forall f, In f [openai; docker] -> validated f = true ->
     missing_fields required_fields f = Ok [] /\ has_required_fields f).
Proof.
  split; [reflexivity|].
  apply (generate_profile_envelope at_noon [openai; docker]).
  unfold valid_date. simpl. lia.
Defined.

(** * Further properties *)

(** ** The rank of a category *)

(** X1: the rank that [sort_key] gives is the position of the category
    in [category_order] exactly when the category is one of the seven
    names, and is the length of the list for every other value, a
    string that is not listed or a value that is no string. *)
Theorem cat_index_characterized (x : json) :
  (cat_index x <= List.length category_order)%nat /\
  (forall i, (i < List.length category_order)%nat ->
     (cat_index x = i <->
      exists c, x = JStr c /\ nth_error category_order i = Some c)) /\
  (cat_index x = List.length category_order <->
   forall c, x = JStr c -> ~ In c category_order).
Proof.
  split; [apply cat_index_bound|]. split.
  - intros i Hi. split.
    + intros E. unfold cat_index in E.
      destruct (list_index x category_order) as [j|] eqn:L.
      * subst j. destruct (list_index_some _ _ _ L) as (_ & c & Hx & Hn).
        now exists c.
      * rewrite <- E in Hi. exfalso. apply (Nat.lt_irrefl _ Hi).
    + intros (c & -> & Hn). now apply cat_index_listed.
  - split.
    + intros E c -> Hin. apply In_nth_error in Hin. destruct Hin as (i & Hn).
      pose proof (cat_index_listed c i Hn) as Hi.
      assert (Hlt : (i < List.length category_order)%nat)
        by (apply nth_error_Some; congruence).
      rewrite E in Hi. rewrite <- Hi in Hlt. apply (Nat.lt_irrefl _ Hlt).
    + apply cat_index_unlisted.
Qed.

(** ** Elements that are no dicts *)

Lemma sort_key_dict (d : dict) :
  sort_key (JObj d) = Ok (rank (JObj d), frag_id (JObj d)).
Proof. reflexivity. Qed.

Lemma sort_key_non_dict (v : json) :
  is_dict v = false -> sort_key v = Raise AttributeError.
Proof. destruct v; try reflexivity. discriminate. Qed.

Lemma decorate_non_dict (fs : list json) (v : json) :
  In v fs -> is_dict v = false ->
  mapM (fun x => k <- sort_key x ;; Ok (k, x)) fs = Raise AttributeError.
Proof.
  intros Hin Hv. induction fs as [|f fs IH]; [contradiction|].
  cbn [mapM]. destruct (is_dict f) eqn:D.
  - destruct f as [| | | | |d]; try discriminate.
    rewrite sort_key_dict. cbn [bind].
    destruct Hin as [<-|Hin]; [discriminate|].
    now rewrite (IH Hin).
  - now rewrite (sort_key_non_dict f D).
Qed.

(** X2: [f.get] exists on dicts only: when some element of the list
    is no dict, [sort_fragments] raises [AttributeError], whatever the
    other elements are; the keys are computed before anything is
    compared. *)
Theorem sort_fragments_needs_dicts (fs : list json) (v : json)
    (Hin : In v fs) (Hv : is_dict v = false) :
  sort_fragments fs = Raise AttributeError.
Proof.
  unfold sort_fragments, sorted_by.
  now rewrite (decorate_non_dict fs v Hin Hv).
Qed.

Lemma sort_fragments_needs_dicts_example :
  sort_fragments [numbered; JArr [JStr "id"]; openai] = Raise AttributeError.
Proof.
  apply (sort_fragments_needs_dicts _ (JArr [JStr "id"])).
  - right. now left.
  - reflexivity.
Defined.

(** ** Which ids meet in a comparison *)

Lemma isortM_pairs {A : Type} (ltM : A -> A -> result bool)
    (lt : A -> A -> bool) (l : list A) :
  ForallOrdPairs (fun x y => ltM y x = Ok (lt y x)) l ->
  isortM ltM l = Ok (isort lt l).
Proof.
  induction 1 as [|x l Hx _ IH]; [reflexivity|].
  cbn [isortM isort]. rewrite IH. cbn [bind].
  apply insertM_total. intros y Hy. apply isort_In in Hy.
  rewrite Forall_forall in Hx. now apply Hx.
Qed.

Lemma decorated_pairs {A K : Type} (kf : A -> K) (R : A -> A -> Prop)
    (l : list A) :
  ForallOrdPairs R l ->
  ForallOrdPairs (fun p q : K * A => R (snd p) (snd q))
                 (map (fun x => (kf x, x)) l).
Proof.
  induction 1 as [|x l Hx _ IH]; cbn [map]; constructor; [|exact IH].
  apply Forall_forall. intros q Hq. apply in_map_iff in Hq.
  destruct Hq as (y & <- & Hy). rewrite Forall_forall in Hx.
  cbn [snd]. now apply Hx.
Qed.

Lemma ordered_pairs_impl {A : Type} (R S : A -> A -> Prop) (l : list A) :
  (forall x y, In x l -> In y l -> R x y -> S x y) ->
  ForallOrdPairs R l -> ForallOrdPairs S l.
Proof.
  intros H F. induction F as [|x l Hx _ IH]; constructor.
  - rewrite Forall_forall in *. intros y Hy.
    apply H; [now left | now right | now apply Hx].
  - apply IH. intros a b Ha Hb. apply H; now right.
Qed.

(** [sorted] with a key that never raises on the list, and a
    comparison that returns on every pair it can meet. *)
Lemma sorted_by_pairs {A K : Type} (key : A -> result K)
    (lt : K -> K -> result bool) (kf : A -> K) (ltb : A -> A -> bool)
    (l : list A) :
  (forall x, In x l -> key x = Ok (kf x)) ->
  ForallOrdPairs (fun x y => lt (kf y) (kf x) = Ok (ltb y x)) l ->
  sorted_by key lt l = Ok (isort ltb l).
Proof.
  intros Hkey Hlt. unfold sorted_by.
  rewrite (mapM_total _ (fun x => (kf x, x))); cbn [bind].
  2:{ intros x Hx. now rewrite (Hkey x Hx). }
  rewrite (isortM_pairs _ (fun p q => ltb (snd p) (snd q))); cbn [bind].
  2:{ apply (decorated_pairs kf) in Hlt.
      eapply ordered_pairs_impl; [|exact Hlt].
      intros p q Hp Hq. apply in_map_iff in Hp, Hq.
      destruct Hp as (x & <- & _), Hq as (y & <- & _). cbn [fst snd]. auto. }
  rewrite (isort_map (fun x => (kf x, x)) ltb) by reflexivity.
  rewrite map_map. cbn [snd]. now rewrite map_id.
Qed.

Lemma key_lt_ranks (r1 r2 : nat) (i1 i2 : json) :
  r1 <> r2 -> key_lt (r1, i1) (r2, i2) = Ok (Nat.ltb r1 r2).
Proof.
  intros H. unfold key_lt. cbn [fst snd].
  apply Nat.eqb_neq in H. now rewrite H.
Qed.

Lemma frag_id_string (f : json) :
  string_id f = true -> frag_id f = JStr (id_text f).
Proof.
  destruct f as [| | | | |d]; try discriminate. unfold string_id, id_text.
  now destruct (frag_id (JObj d)).
Qed.

Lemma key_lt_comparable (f g : json) :
  comparable f g ->
  key_lt (rank g, frag_id g) (rank f, frag_id f) = Ok (fragment_lt g f).
Proof.
  intros [Hr|[Hf Hg]].
  - rewrite key_lt_ranks by congruence.
    unfold fragment_lt, text_key_lt, text_key. cbn [fst snd].
    assert (E : (rank g =? rank f)%nat = false) by (apply Nat.eqb_neq; congruence).
    rewrite E. now rewrite orb_false_r.
  - rewrite (frag_id_string f Hf), (frag_id_string g Hg).
    apply (key_lt_text (text_key g) (text_key f)).
Qed.

(** X3: ids are compared only inside one category rank.  When all
    elements are dicts and any two of them have different ranks or
    both a string id, [sort_fragments] returns a rearrangement of the
    list in which the ranks never decrease, and within a rank the
    string ids ascend; an id of another type does no harm as long as
    its fragment is alone in its rank. *)
Theorem sort_fragments_compares_within_rank (fs : list json)
    (Hdicts : Forall (fun f => is_dict f = true) fs)
    (Hpairs : ForallOrdPairs comparable fs) :
  exists out,
    sort_fragments fs = Ok out /\
    Permutation out fs /\
    (forall f g, before f g out ->
       (rank f < rank g)%nat \/
       (rank f = rank g /\ String.leb (id_text f) (id_text g) = true)).
Proof.
  exists (isort fragment_lt fs). split; [|split].
  - unfold sort_fragments.
    apply sorted_by_pairs with (kf := fun f => (rank f, frag_id f)).
    + intros f Hf. rewrite Forall_forall in Hdicts.
      specialize (Hdicts f Hf). destruct f; try discriminate. reflexivity.
    + eapply ordered_pairs_impl; [|exact Hpairs].
      intros f g _ _. apply key_lt_comparable.
  - apply isort_perm.
  - intros f g (l1 & l2 & l3 & E). eapply sorted_fragments_order. exact E.
Qed.

Lemma sort_fragments_compares_within_rank_example :
  sort_fragments [docker; with_a_list; openai]
    = Ok [openai; with_a_list; docker] /\
  exists out,
    sort_fragments [docker; with_a_list; openai] = Ok out /\
    Permutation out [docker; with_a_list; openai] /\
    (forall f g, before f g out ->
       (rank f < rank g)%nat \/
       (rank f = rank g /\ String.leb (id_text f) (id_text g) = true)).
Proof.
  split; [reflexivity|].
  apply (sort_fragments_compares_within_rank [docker; with_a_list; openai]).
  - repeat constructor.
  - repeat first [left; vm_compute; discriminate | constructor].
Defined.

(** ** Integer ids *)

Lemma number_key_lt_irrefl (a : nat * Z) : number_key_lt a a = false.
Proof.
  unfold number_key_lt. now rewrite Nat.ltb_irrefl, Nat.eqb_refl, Z.ltb_irrefl.
Qed.

Lemma number_key_lt_trans (a b c : nat * Z) :
  number_key_lt a b = true -> number_key_lt b c = true ->
  number_key_lt a c = true.
Proof.
  unfold number_key_lt. destruct a as [r1 n1], b as [r2 n2], c as [r3 n3].
  cbn [fst snd].
  rewrite !orb_true_iff, !andb_true_iff, !Nat.ltb_lt, !Nat.eqb_eq, !Z.ltb_lt.
  lia.
Qed.

Lemma number_key_lt_connex (a b : nat * Z) :
  number_key_lt a b = false -> number_key_lt b a = false -> a = b.
Proof.
  unfold number_key_lt. destruct a as [r1 n1], b as [r2 n2]. cbn [fst snd].
  rewrite !orb_false_iff, !andb_false_iff, !Nat.ltb_ge, !Nat.eqb_neq, !Z.ltb_ge.
  intros H1 H2. f_equal; lia.
Qed.

Lemma frag_id_int (f : json) :
  int_id f = true -> frag_id f = JInt (id_number f).
Proof.
  destruct f as [| | | | |d]; try discriminate. unfold int_id, id_number.
  now destruct (frag_id (JObj d)).
Qed.

Lemma key_lt_number (a b : nat * Z) :
  key_lt (fst a, JInt (snd a)) (fst b, JInt (snd b)) = Ok (number_key_lt a b).
Proof.
  unfold key_lt, number_key_lt. destruct a as [r1 n1], b as [r2 n2].
  cbn [fst snd py_eq py_lt].
  destruct (Nat.eqb_spec r1 r2) as [->|Hne]; cbn [negb].
  - rewrite Nat.ltb_irrefl. cbn [orb andb].
    destruct (Z.eqb_spec n1 n2) as [->|Hn]; [|reflexivity].
    now rewrite Z.ltb_irrefl.
  - now rewrite orb_false_r.
Qed.

Lemma number_order (f g : json) :
  may_precede fragment_number_lt f g ->
  (rank f < rank g)%nat \/ (rank f = rank g /\ (id_number f <= id_number g)%Z).
Proof.
  unfold may_precede, fragment_number_lt, number_key_lt, number_key.
  cbn [fst snd].
  rewrite orb_false_iff, andb_false_iff, Nat.ltb_ge, Nat.eqb_neq, Z.ltb_ge.
  lia.
Qed.

(** X4: when every id is an integer, [sort_fragments] returns a
    rearrangement of the list ordered by category rank and, within a
    rank, by the ids as numbers: the id 2 stands before the id 10,
    which as strings would stand the other way round. *)
Theorem sort_fragments_integer_ids (fs : list json)
    (Hids : Forall (fun f => int_id f = true) fs) :
  exists out,
    sort_fragments fs = Ok out /\
    Permutation out fs /\
    (forall f g, before f g out ->
       (rank f < rank g)%nat \/
       (rank f = rank g /\ (id_number f <= id_number g)%Z)).
Proof.
  rewrite Forall_forall in Hids.
  exists (isort fragment_number_lt fs). split; [|split].
  - unfold sort_fragments.
    apply sorted_by_total with (kf := fun f => (rank f, frag_id f)).
    + intros f Hf. specialize (Hids f Hf).
      destruct f; try discriminate. reflexivity.
    + intros f g Hf Hg.
      rewrite (frag_id_int f (Hids f Hf)), (frag_id_int g (Hids g Hg)).
      apply (key_lt_number (number_key f) (number_key g)).
  - apply isort_perm.
  - intros f g (l1 & l2 & l3 & E). apply number_order.
    apply (StronglySorted_apart _ l1 l2 l3). rewrite <- E.
    apply (isort_sorted fragment_number_lt number_key number_key_lt).
    + reflexivity.
    + apply number_key_lt_irrefl.
    + apply number_key_lt_trans.
    + apply number_key_lt_connex.
Qed.

Lemma sort_fragments_integer_ids_example :
  sort_fragments [number_10; number_2] = Ok [number_2; number_10] /\
  String.ltb "10" "2" = true /\
  exists out,
    sort_fragments [number_10; number_2] = Ok out /\
    Permutation out [number_10; number_2] /\
    (forall f g, before f g out ->
       (rank f < rank g)%nat \/
       (rank f = rank g /\ (id_number f <= id_number g)%Z)).
Proof.
  split; [reflexivity|]. split; [reflexivity|].
  apply (sort_fragments_integer_ids [number_10; number_2]).
  repeat constructor.
Defined.

(** ** How a run can end *)









(** ** What a run does to the output file *)

Lemma effects_app (t1 t2 : list event) :
  effects (t1 ++ t2) = effects t1 ++ effects t2.
Proof. apply filter_app. Qed.

Lemma effects_prints (t : list line) : effects (map Print t) = [].
Proof. induction t as [|l t IH]; [reflexivity | exact IH]. Qed.

Lemma string_length_append (s t : string) :
  String.length (s ++ t) = (String.length s + String.length t)%nat.
Proof. induction s as [|c s IH]; cbn; [reflexivity | now rewrite IH]. Qed.

Lemma substring_0_length (n : nat) (s : string) :
  String.length (substring 0 n s) = Nat.min n (String.length s).
Proof.
  revert s. induction n as [|n IH]; intros [|c s]; cbn; try reflexivity.
  now rewrite IH.
Qed.

Lemma substring_0_prefix (n : nat) (s : string) :
  String.prefix (substring 0 n s) s = true.
Proof.
  revert s. induction n as [|n IH]; intros [|c s]; cbn; try reflexivity.
  destruct (ascii_dec c c); [apply IH | congruence].
Qed.

(** X6: the output file is touched in exactly one kind of run: without
    [--validate] and without [--dry-run], with at least one valid
    fragment, and with a Sorter that returns.  Such a run creates the
    directory and then writes the file once; every other run, the
    failing ones included, leaves the file system alone. *)
Theorem output_touched_iff (a : args) (env : environment) :
  (touched (fst (main a env)) = true <->
   validate a = false /\ dry_run a = false /\
   collected (source_dir env) <> [] /\
   exists out, sort_fragments (collected (source_dir env)) = Ok out) /\
  (touched (fst (main a env)) = true <->
   exists content, written (fst (main a env)) = Some content) /\
  effects (fst (main a env))
  = match written (fst (main a env)) with
    | Some content => [MkdirOutputParent; WriteOutput content]
    | None => []
    end.
Proof.
  destruct (main_after_collect a env) as (t & _ & E). rewrite E. cbn [fst].
  rewrite touched_app, touched_prints, written_app, written_prints,
    effects_app, effects_prints. cbn [orb app].
  destruct (collected (source_dir env)) as [|f fs] eqn:C.
  { rewrite after_collect_none.
    cbn [fst touched existsb orb written effects filter].
    split; [split; [discriminate | intros (_ & _ & H & _); congruence]|].
    split; [split; [discriminate | intros (c & H); discriminate] | reflexivity]. }
  assert (Hne : f :: fs <> []) by discriminate.
  destruct (validate a) eqn:V.
  { rewrite after_collect_validate by assumption.
    cbn [fst touched existsb orb written effects filter].
    split; [split; [discriminate | intros (H & _); discriminate]|].
    split; [split; [discriminate | intros (c & H); discriminate] | reflexivity]. }
  destruct (sort_fragments (f :: fs)) as [out|e] eqn:S.
  2:{ rewrite (after_collect_raise a _ _ e) by assumption.
      cbn [fst touched existsb orb written effects filter].
      split; [split; [discriminate
                     | intros (_ & _ & _ & out & H); discriminate]|].
      split; [split; [discriminate | intros (c & H); discriminate]
             | reflexivity]. }
  destruct (dry_run a) eqn:D.
  { rewrite (after_collect_dry_run a _ _ out) by assumption. cbn [fst].
    rewrite touched_prints, written_prints, effects_prints.
    split; [split; [discriminate | intros (_ & H & _); discriminate]|].
    split; [split; [discriminate | intros (c & H); discriminate] | reflexivity]. }
  rewrite (after_collect_generate a _ _ out) by assumption.
  cbn [fst touched existsb orb written effects filter].
  split; [split; [intros _; repeat split; auto; now exists out | reflexivity]|].
  split; [split; [intros _; eexists; reflexivity | reflexivity] | reflexivity].
Qed.

Lemma preview_short (s : string) :
  (String.length s <= 500)%nat -> preview s = s.
Proof.
  intros H. unfold preview.
  destruct (Nat.ltb_spec 500 (String.length s)); [lia | reflexivity].
Qed.

Lemma preview_long (s : string) :
  (500 < String.length s)%nat ->
  preview s = (substring 0 500 s ++ "...")%string /\
  String.length (preview s) = 503%nat.
Proof.
  intros H. unfold preview.
  destruct (Nat.ltb_spec 500 (String.length s)); [|lia].
  split; [reflexivity|].
  rewrite string_length_append, substring_0_length.
  rewrite Nat.min_l by lia. reflexivity.
Qed.

(** X7: a dry run shows what a generate run would write.  When the
    generate run on a directory and a clock writes [content], the dry
    run on the same directory and clock ends normally, touches nothing,
    reports as size the length of [content] without its final newline,
    and previews that text: all of it when it has at most 500
    characters, else its first 500 characters followed by three dots,
    503 characters in all. *)
Theorem dry_run_previews_output (env : environment) (content : string)
    (Hgen : written (fst (main generate env)) = Some content) :
  exists body,
    content = (body ++ newline)%string /\
    snd (main dry env) = Return tt /\
    touched (fst (main dry env)) = false /\
    In (Print (Size (String.length body))) (fst (main dry env)) /\
    In (Print (Preview (preview body))) (fst (main dry env)) /\
    (String.length (preview body) <= 503)%nat /\
    String.prefix (substring 0 500 body) body = true /\
    ((String.length body <= 500)%nat -> preview body = body) /\
    ((500 < String.length body)%nat ->
     preview body = (substring 0 500 body ++ "...")%string).
Proof.
  destruct (main_written generate env content Hgen) as (out & Hs & -> & _).
  exists (json_dumps (generate_profile (now env) out)).
  split; [reflexivity|].
  assert (Hne : collected (source_dir env) <> []).
  { intros C. destruct (main_after_collect generate env) as (t & _ & E).
    rewrite E, C, after_collect_none in Hgen. cbn [fst] in Hgen.
    rewrite written_app, written_prints in Hgen. discriminate. }
  destruct (main_after_collect dry env) as (t & _ & E). rewrite E.
  rewrite (after_collect_dry_run dry _ _ out Hne eq_refl Hs eq_refl).
  cbn [fst snd]. split; [reflexivity|].
  split; [now rewrite touched_app, !touched_prints|].
  split; [apply in_or_app; right; cbn; tauto|].
  split; [apply in_or_app; right; cbn; tauto|].
  split.
  { destruct (Nat.le_gt_cases
                (String.length (json_dumps (generate_profile (now env) out))) 500)
      as [H|H].
    - rewrite preview_short by exact H. lia.
    - destruct (preview_long _ H) as (_ & ->). lia. }
  split; [apply substring_0_prefix|].
  split; [apply preview_short|].
  intros H. now apply preview_long.
Qed.

Lemma dry_run_previews_output_example :
  exists body,
    (json_dumps (generate_profile at_noon [openai; docker]) ++ newline)%string
      = (body ++ newline)%string /\
    snd (main dry two_fragments) = Return tt /\
    touched (fst (main dry two_fragments)) = false /\
    In (Print (Size (String.length body))) (fst (main dry two_fragments)) /\
    In (Print (Preview (preview body))) (fst (main dry two_fragments)) /\
    (String.length (preview body) <= 503)%nat /\
    String.prefix (substring 0 500 body) body = true /\
    ((String.length body <= 500)%nat -> preview body = body) /\
    ((500 < String.length body)%nat ->
     preview body = (substring 0 500 body ++ "...")%string).
Proof.
  apply (dry_run_previews_output two_fragments). reflexivity.
Defined.

(** ** The verdict on each candidate *)

Lemma ok_lines_app (t1 t2 : list event) :
  ok_lines (t1 ++ t2) = ok_lines t1 ++ ok_lines t2.
Proof. apply flat_map_app. Qed.

Lemma error_files_app (t1 t2 : list event) :
  error_files (t1 ++ t2) = error_files t1 ++ error_files t2.
Proof. apply flat_map_app. Qed.

Lemma error_line_shape (l : line) (name : string) :
  line_severity l = Some ERROR -> line_file l = Some name ->
  ok_lines [Print l] = [] /\ error_files [Print l] = [name].
Proof. destruct l; cbn; intros S F; try discriminate; injection F as ->; auto. Qed.

(** One file gives either one [OK] line and a fragment, or one
    [ERROR] line and none. *)
Lemma file_trace_verdict (e : entry) :
  (exists f, accepted [e] = [f] /\
             ok_lines (file_trace e) = [(fst e, display_name f)] /\
             error_files (file_trace e) = []) \/
  (accepted [e] = [] /\ ok_lines (file_trace e) = [] /\
   error_files (file_trace e) = [fst e]).
Proof.
  destruct e as [name file]. unfold file_trace, accepted.
  cbn [fst snd flat_map]. rewrite app_nil_r.
  destruct (load_fragment_cases name file) as (t & r & E & Hr). rewrite E.
  destruct r as [f|].
  - left. destruct Hr as (-> & V & id & ->). rewrite V. exists f.
    destruct (validated_usable f V) as (_ & shown & Hs).
    unfold display_name. rewrite Hs.
    split; [reflexivity|]. now destruct (py_eq id (JStr (stem name))).
  - right. destruct Hr as (l & -> & S & F).
    destruct (error_line_shape l name S F) as (H1 & H2).
    split; [|now split].
    destruct file as [v|x]; [|reflexivity].
    destruct (validated v) eqn:V; [|reflexivity].
    exfalso. destruct v as [| | | | |d]; try discriminate.
    destruct (load_fragment_dict_valid name d V) as (id & _ & E').
    rewrite E' in E. discriminate.
Qed.

Lemma files_trace_verdicts (files : list entry) :
  map snd (ok_lines (flat_map file_trace files))
    = map display_name (accepted files) /\
  Permutation (map fst (ok_lines (flat_map file_trace files))
                 ++ error_files (flat_map file_trace files))
              (map fst files).
Proof.
  induction files as [|e files (IH1 & IH2)]; [split; [reflexivity | constructor]|].
  cbn [flat_map map]. rewrite ok_lines_app, error_files_app.
  change (e :: files) with ([e] ++ files). rewrite accepted_app.
  rewrite !map_app, IH1.
  destruct (file_trace_verdict e) as [(f & -> & -> & ->)|(-> & -> & ->)];
    cbn [map app fst snd].
  - split; [reflexivity | now constructor].
  - split; [reflexivity|].
    apply Permutation_sym, Permutation_cons_app, Permutation_sym, IH2.
Qed.

(** X8: the Collector accounts for every candidate file exactly once:
    the names in its [OK] lines together with the names in its [ERROR]
    lines are the names of the candidates, so that their numbers add
    up to the number printed in the [Found] line.  The [OK] lines
    stand in the order of the collected fragments and show their
    [name]. *)
Theorem collect_fragments_verdicts (entries : list entry) :
  In (Print (Found (List.length (json_files entries))))
     (fst (collect_fragments (Some entries))) /\
  map snd (ok_lines (fst (collect_fragments (Some entries))))
    = map display_name (collected (Some entries)) /\
  Permutation
    (map fst (ok_lines (fst (collect_fragments (Some entries))))
       ++ error_files (fst (collect_fragments (Some entries))))
    (map fst (json_files entries)) /\
  (List.length (ok_lines (fst (collect_fragments (Some entries))))
   + List.length (error_files (fst (collect_fragments (Some entries))))
   = List.length (json_files entries))%nat /\
  List.length (ok_lines (fst (collect_fragments (Some entries))))
  = List.length (collected (Some entries)).
Proof.
  rewrite collect_fragments_some. cbn [fst collected].
  destruct (files_trace_verdicts (json_files entries)) as (H1 & H2).
  split; [right; now left|].
  change (ok_lines (Print Scanning :: Print (Found (List.length (json_files entries)))
                      :: flat_map file_trace (json_files entries)))
    with (ok_lines (flat_map file_trace (json_files entries))).
  change (error_files (Print Scanning :: Print (Found (List.length (json_files entries)))
                      :: flat_map file_trace (json_files entries)))
    with (error_files (flat_map file_trace (json_files entries))).
  split; [exact H1|]. split; [exact H2|]. split.
  - apply Permutation_length in H2.
    rewrite length_app, !length_map in H2. exact H2.
  - rewrite <- (length_map snd), H1. apply length_map.
Qed.

(** ** The numbers a run prints *)

Lemma collect_line_kinds (dir : option (list entry)) (l : line) :
  In (Print l) (fst (collect_fragments dir)) ->
  l = ErrNoSourceDir \/ l = Scanning \/ (exists n, l = Found n) \/
  (exists name, line_file l = Some name).
Proof.
  destruct dir as [entries|].
  - rewrite collect_fragments_some. cbn [fst].
    intros [[= <-]|[[= <-]|H]]; [tauto | right; right; left; eauto|].
    right. right. right. apply in_flat_map in H. destruct H as (e & _ & H).
    exists (fst e). now apply file_trace_names.
  - cbn. intros [[= <-]|[]]. now left.
Qed.

Lemma main_line_origin (a : args) (env : environment) (l : line) :
  In (Print l) (fst (main a env)) ->
  In l [Rule; Title; RuleBlank] \/
  In (Print l) (fst (collect_fragments (source_dir env))) \/
  In (Print l) (fst (after_collect a (now env) (collected (source_dir env)))).
Proof.
  destruct (main_after_collect a env) as (t & C & E). rewrite E, C.
  cbn [fst]. rewrite map_app, <- app_assoc. intros H.
  apply in_app_or in H. destruct H as [H|H].
  - left. apply in_map_iff in H. destruct H as (l' & [= ->] & H). exact H.
  - apply in_app_or in H. tauto.
Qed.

(** [H] says that a line is one of finitely many: one goal for each
    that it can be. *)
Ltac which_line H :=
  cbn [fst map In] in H;
  repeat (destruct H as [H|H]; [try discriminate H|]);
  try contradiction.

(** The lines that [main] prints after the fragments are collected. *)
Lemma after_collect_lines (a : args) (now : datetime) (fs : list json)
    (l : line) :
  In (Print l) (fst (after_collect a now fs)) ->
  l = ErrNoValid \/ l = Summary (List.length fs) \/ l = ValidationComplete \/
  exists out,
    sort_fragments fs = Ok out /\
    In l [DryRunHeader; OutputPath; PreviewHeader; Generated; Footer;
          Templates (List.length out);
          Size (String.length (json_dumps (generate_profile now out)));
          Preview (preview (json_dumps (generate_profile now out)))].
Proof.
  destruct fs as [|f fs].
  { rewrite after_collect_none. intros H. which_line H.
    injection H as <-. now left. }
  assert (Hne : f :: fs <> []) by discriminate.
  destruct (validate a) eqn:V.
  { rewrite after_collect_validate by assumption. intros H. which_line H;
      injection H as <-; tauto. }
  destruct (sort_fragments (f :: fs)) as [out|e] eqn:S.
  2:{ rewrite (after_collect_raise a _ _ e) by assumption. intros H.
      which_line H. injection H as <-. tauto. }
  destruct (dry_run a) eqn:D.
  - rewrite (after_collect_dry_run a _ _ out) by assumption. intros H.
    which_line H; injection H as <-;
      first [right; left; reflexivity
            | right; right; right; exists out; split; [reflexivity|];
              cbn [In]; tauto].
  - rewrite (after_collect_generate a _ _ out) by assumption. intros H.
    which_line H; injection H as <-;
      first [right; left; reflexivity
            | right; right; right; exists out; split; [reflexivity|];
              cbn [In]; tauto].
Qed.

(** A line that neither the banner nor the Collector prints comes from
    the rest of [main]. *)
Lemma main_line_late (a : args) (env : environment) (l : line) :
  line_file l = None -> l <> ErrNoSourceDir -> l <> Scanning ->
  (forall n, l <> Found n) -> ~ In l [Rule; Title; RuleBlank] ->
  In (Print l) (fst (main a env)) ->
  In (Print l) (fst (after_collect a (now env) (collected (source_dir env)))).
Proof.
  intros H1 H2 H3 H4 H5 H. apply main_line_origin in H.
  destruct H as [H|[H|H]]; [contradiction| |exact H].
  apply collect_line_kinds in H.
  destruct H as [H|[H|[(n & H)|(name & H)]]];
    [contradiction | contradiction | now apply H4 in H | congruence].
Qed.

(** X9: the numbers in the summary and in the result lines are what
    they say.  Every [SUMMARY] line and every [Templates] line of a run
    carries the number of collected fragments, sorting changes no
    count; and what the run writes is the serialized text followed by
    one newline, the [Size] line giving the length of the text without
    that newline. *)
Theorem main_reports_counts (a : args) (env : environment) :
  (forall k, In (Print (Summary k)) (fst (main a env)) ->
     k = List.length (collected (source_dir env))) /\
  (forall k, In (Print (Templates k)) (fst (main a env)) ->
     k = List.length (collected (source_dir env))) /\
  (forall n content,
     In (Print (Size n)) (fst (main a env)) ->
     written (fst (main a env)) = Some content ->
     String.length content = S n /\
     exists body, content = (body ++ newline)%string /\ String.length body = n).
Proof.
  split; [|split].
  - intros k H.
    apply (main_line_late a env (Summary k) eq_refl ltac:(discriminate)
             ltac:(discriminate) ltac:(intros; discriminate)
             ltac:(intros X; which_line X)) in H.
    apply after_collect_lines in H.
    destruct H as [H|[H|[H|(out & _ & H)]]]; try discriminate.
    + now injection H.
    + which_line H.
  - intros k H.
    apply (main_line_late a env (Templates k) eq_refl ltac:(discriminate)
             ltac:(discriminate) ltac:(intros; discriminate)
             ltac:(intros X; which_line X)) in H.
    apply after_collect_lines in H.
    destruct H as [H|[H|[H|(out & Hs & H)]]]; try discriminate.
    which_line H. injection H as <-. apply sorted_by_perm in Hs.
    now apply Permutation_length.
  - intros n content H Hw.
    apply (main_line_late a env (Size n) eq_refl ltac:(discriminate)
             ltac:(discriminate) ltac:(intros; discriminate)
             ltac:(intros X; which_line X)) in H.
    apply after_collect_lines in H.
    destruct H as [H|[H|[H|(out & Hs & H)]]]; try discriminate.
    which_line H.
    match type of H with
    | Size ?x = _ => assert (E : n = x) by congruence
    end.
    subst n. clear H.
    destruct (main_written a env content Hw) as (out' & Hs' & -> & _).
    rewrite Hs in Hs'. injection Hs' as <-.
    split.
    + rewrite string_length_append.
      change (String.length newline) with 1%nat. lia.
    + eexists. split; reflexivity.
Qed.

Lemma main_reports_counts_example :
  String.length
    (json_dumps (generate_profile at_noon [openai; docker]) ++ newline)%string
  = S (String.length (json_dumps (generate_profile at_noon [openai; docker])))
  /\
  exists body,
    (json_dumps (generate_profile at_noon [openai; docker]) ++ newline)%string
      = (body ++ newline)%string /\
    String.length body
    = String.length (json_dumps (generate_profile at_noon [openai; docker])).
Proof.
  apply (proj2 (proj2 (main_reports_counts generate two_fragments))).
  - vm_compute. repeat first [left; reflexivity | right].
  - reflexivity.
Defined.

(** ** A file named after its id *)

Lemma rfind_append (c : ascii) (s t : string) (i : nat) :
  rfind c t = Some i -> rfind c (s ++ t) = Some (String.length s + i)%nat.
Proof.
  intros H. induction s as [|a s IH]; [exact H|].
  cbn [append rfind String.length]. now rewrite IH.
Qed.

Lemma substring_0_append (s t : string) :
  substring 0 (String.length s) (s ++ t) = s.
Proof.
  induction s as [|a s IH]; cbn [append String.length substring].
  - now destruct t.
  - now rewrite IH.
Qed.

Lemma substring_skip_append (s t : string) (m : nat) :
  substring (String.length s) m (s ++ t) = substring 0 m t.
Proof.
  induction s as [|a s IH]; [reflexivity|].
  cbn [append String.length substring]. exact IH.
Qed.

Lemma stem_json (s : string) : s <> "" -> stem (s ++ ".json")%string = s.
Proof.
  intros Hs. unfold stem.
  rewrite (rfind_append "." s ".json" 0 eq_refl), Nat.add_0_r.
  rewrite string_length_append. change (String.length ".json") with 5%nat.
  assert (H0 : (0 <? String.length s)%nat = true).
  { apply Nat.ltb_lt. destruct s; [congruence | cbn; lia]. }
  assert (H1 : (String.length s <? String.length s + 5 - 1)%nat = true)
    by (apply Nat.ltb_lt; lia).
  rewrite H0, H1. apply substring_0_append.
Qed.

Lemma endswith_json (s : string) : endswith ".json" (s ++ ".json")%string = true.
Proof.
  unfold endswith. rewrite string_length_append.
  change (String.length ".json") with 5%nat.
  replace (String.length s + 5 - 5)%nat with (String.length s) by lia.
  rewrite substring_skip_append.
  apply andb_true_iff. split; [apply Nat.leb_le; lia | reflexivity].
Qed.

Lemma startswith_append (s t : string) :
  s <> "" -> startswith "_" (s ++ t) = startswith "_" s.
Proof.
  intros Hs. destruct s as [|a s]; [congruence|].
  unfold startswith. cbn [append String.prefix].
  destruct (ascii_dec "_" a); [|reflexivity].
  now destruct (s ++ t)%string, s.
Qed.

(** X10: the Loader is silent exactly when the id is the stem of the
    file name.  For a dict with the five keys and the string id [s],
    [load_fragment] prints nothing if and only if [s] is [Path.stem]
    of the name; and the stem of [s.json] is [s] for every non-empty
    [s], dots in [s] included, so that a fragment stored under its own
    id is a candidate unless [s] starts with an underscore, and is
    then loaded without a warning and shown in one [OK] line. *)
Theorem load_fragment_silent_iff (name s : string) (d : dict)
    (Hvalid : validated (JObj d) = true)
    (Hid : dict_get "id" d = Some (JStr s)) :
  (fst (load_fragment name (Ok (JObj d))) = [] <-> s = stem name) /\
  (s <> "" ->
   stem (s ++ ".json")%string = s /\
   load_fragment (s ++ ".json")%string (Ok (JObj d)) = ([], Return (Some (JObj d))) /\
   is_candidate ((s ++ ".json")%string, Ok (JObj d)) = negb (startswith "_" s) /\
   file_trace ((s ++ ".json")%string, Ok (JObj d))
   = [Print (OkFragment (s ++ ".json")%string (display_name (JObj d)))]).
Proof.
  assert (L : forall n, load_fragment n (Ok (JObj d))
                = (if String.eqb s (stem n)
                   then [] else [Print (WarnIdMismatch n (JStr s))],
                   Return (Some (JObj d)))).
  { intros n. destruct (load_fragment_dict_valid n d Hvalid) as (id & Hid' & E).
    rewrite Hid in Hid'. injection Hid' as <-. exact E. }
  split.
  - rewrite L. cbn [fst]. destruct (String.eqb_spec s (stem name)) as [E|E].
    + tauto.
    + split; [discriminate | contradiction].
  - intros Hs. pose proof (stem_json s Hs) as St.
    assert (L' : load_fragment (s ++ ".json")%string (Ok (JObj d))
                 = ([], Return (Some (JObj d)))).
    { rewrite L, St. now rewrite String.eqb_refl. }
    split; [exact St|]. split; [exact L'|]. split.
    + unfold is_candidate. cbn [fst].
      now rewrite endswith_json, (startswith_append s ".json" Hs).
    + unfold file_trace. cbn [fst snd]. rewrite L'.
      destruct (validated_usable (JObj d) Hvalid) as (_ & shown & Hsh).
      unfold display_name. now rewrite Hsh.
Qed.

Lemma load_fragment_silent_example :
  stem "open.ai.json" = "open.ai" /\
  load_fragment "open.ai.json" (Ok (fragment "open.ai" "OpenAI" "AI"))
    = ([], Return (Some (fragment "open.ai" "OpenAI" "AI"))).
Proof.
  destruct (proj2 (load_fragment_silent_iff "x.json" "open.ai"
                     [("id", JStr "open.ai"); ("name", JStr "OpenAI");
                      ("description", JStr "d"); ("category", JStr "AI");
                      ("variables", JArr [])] eq_refl eq_refl))
    as (H1 & H2 & _).
  - discriminate.
  - split; [exact H1 | exact H2].
Defined.

(** ** The names of the files *)

Lemma string_id_perm_nil (l1 l2 : list json) :
  Permutation l1 l2 -> is_nil l1 = is_nil l2.
Proof.
  intros H. destruct l1, l2; try reflexivity.
  - apply Permutation_nil in H. discriminate.
  - apply Permutation_sym, Permutation_nil in H. discriminate.
Qed.

Lemma after_collect_perm (a : args) (n1 n2 : datetime) (fs1 fs2 : list json) :
  Permutation fs1 fs2 -> NoDup (map text_key fs1) ->
  Forall (fun f => string_id f = true) fs1 -> same_date n1 n2 ->
  after_collect a n1 fs1 = after_collect a n2 fs2.
Proof.
  intros HP Hnd Hids Hd.
  assert (Hs1 : sort_fragments fs1 = Ok (isort fragment_lt fs1))
    by now apply sort_fragments_string_ids.
  assert (Hs2 : sort_fragments fs2 = Ok (isort fragment_lt fs1)).
  { rewrite (sorted_fragments_perm fs1 fs2 Hnd HP).
    apply sort_fragments_string_ids. eapply string_id_perm; eassumption. }
  pose proof (Permutation_length HP) as Hl.
  destruct fs1 as [|f1 fs1].
  { apply Permutation_nil in HP. subst fs2. reflexivity. }
  destruct fs2 as [|f2 fs2].
  { apply Permutation_sym, Permutation_nil in HP. discriminate. }
  assert (N1 : f1 :: fs1 <> []) by discriminate.
  assert (N2 : f2 :: fs2 <> []) by discriminate.
  destruct (validate a) eqn:V.
  { rewrite !after_collect_validate by assumption. now rewrite Hl. }
  destruct (dry_run a) eqn:D.
  - rewrite (after_collect_dry_run a n1 _ _ N1 V Hs1 D),
      (after_collect_dry_run a n2 _ _ N2 V Hs2 D).
    now rewrite Hl, (generate_profile_same_date n1 n2 _ Hd).
  - rewrite (after_collect_generate a n1 _ _ N1 V Hs1 D),
      (after_collect_generate a n2 _ _ N2 V Hs2 D).
    now rewrite Hl, (generate_profile_same_date n1 n2 _ Hd).
Qed.

(** X11: what a run writes depends on the fragments, not on the files
    they are stored in.  When two directories yield the same valid
    fragments in whatever order, with string ids and pairwise different
    sort keys (category rank, id), two runs in the same mode on the same
    date end alike and write the same text: renaming the files, which
    changes the order in which they are loaded, changes only the
    console. *)
Theorem output_independent_of_file_names (a : args) (env1 env2 : environment)
    (Hsame : Permutation (collected (source_dir env1))
                         (collected (source_dir env2)))
    (Hkeys : NoDup (map text_key (collected (source_dir env1))))
    (Hids : Forall (fun f => string_id f = true) (collected (source_dir env1)))
    (Hdate : same_date (now env1) (now env2)) :
  written (fst (main a env1)) = written (fst (main a env2)) /\
  snd (main a env1) = snd (main a env2) /\
  effects (fst (main a env1)) = effects (fst (main a env2)).
Proof.
  destruct (main_after_collect a env1) as (t1 & _ & ->).
  destruct (main_after_collect a env2) as (t2 & _ & ->).
  cbn [fst snd].
  rewrite !written_app, !written_prints, !effects_app, !effects_prints.
  now rewrite (after_collect_perm a _ _ _ _ Hsame Hkeys Hids Hdate).
Qed.

Lemma output_independent_of_file_names_example :
  written (fst (main generate two_fragments))
    = written (fst (main generate renamed)) /\
  snd (main generate two_fragments) = snd (main generate renamed) /\
  effects (fst (main generate two_fragments))
    = effects (fst (main generate renamed)).
Proof.
  apply (output_independent_of_file_names generate two_fragments renamed).
  - vm_compute. apply Permutation_refl.
  - vm_compute. repeat constructor; simpl; intuition discriminate.
  - vm_compute. repeat constructor.
  - repeat split.
Defined.

(** ** The characters of the written text *)














(** ** A missing directory, an empty directory *)

Lemma json_files_nil_collected (entries : list entry) :
  json_files entries = [] -> collected (Some entries) = [].
Proof. intros H. cbn [collected]. now rewrite H. Qed.

(** X13: a run without candidates.  When the source directory does
    not exist the console is the banner, the ERROR line about the
    directory and the closing ERROR line; when it exists and holds no
    candidate file, the banner, the scan line, [Found 0] and the
    closing ERROR line.  Either way the run ends with [sys.exit(1)],
    whatever the flags and the clock, and the line about the directory
    is printed by a run exactly when the directory is missing. *)
Theorem main_without_candidates (a : args) (env : environment) :
  (source_dir env = None ->
   main a env
   = (map Print [Rule; Title; RuleBlank; ErrNoSourceDir; ErrNoValid],
      Exited 1)) /\
  (forall entries, source_dir env = Some entries -> json_files entries = [] ->
   main a env
   = (map Print [Rule; Title; RuleBlank; Scanning; Found 0; ErrNoValid],
      Exited 1)) /\
  (In (Print ErrNoSourceDir) (fst (main a env)) <-> source_dir env = None).
Proof.
  split; [|split].
  - intros H. unfold main. rewrite H. reflexivity.
  - intros entries H Hf. unfold main. rewrite H.
    rewrite collect_fragments_some, Hf. reflexivity.
  - split.
    + intros H. apply main_line_origin in H. destruct H as [H|[H|H]].
      * which_line H.
      * destruct (source_dir env) as [entries|]; [|reflexivity].
        rewrite collect_fragments_some in H. cbn [fst] in H.
        destruct H as [H|[H|H]]; try discriminate.
        apply in_flat_map in H. destruct H as (e & _ & H).
        apply file_trace_names in H. discriminate.
      * apply after_collect_lines in H.
        destruct H as [H|[H|[H|(out & _ & H)]]]; try discriminate.
        which_line H.
    + intros H. unfold main. rewrite H. cbn. tauto.
Qed.

Lemma main_without_candidates_example :
  main dry empty_directory
  = (map Print [Rule; Title; RuleBlank; Scanning; Found 0; ErrNoValid],
     Exited 1).
Proof.
  apply (proj1 (proj2 (main_without_candidates dry empty_directory))
           [("notes.txt", Raise (OtherException "not JSON"));
            ("_draft.json", Ok docker)]); reflexivity.
Defined.

(** ** Validation only *)

(** X14: [--validate] comes first.  A run with [--validate] neither
    sorts, nor reads the clock, nor looks at [--dry-run]: it is the
    same run whatever these are.  Its console is the banner, the lines
    of the Collector and then either the closing ERROR line or the
    summary and the line [Validation complete], and it never fails
    with an exception, also on fragments whose ids make the Sorter
    raise. *)
Theorem validate_comes_first (a1 a2 : args) (env1 env2 : environment)
    (Hv1 : validate a1 = true) (Hv2 : validate a2 = true)
    (Hdir : source_dir env1 = source_dir env2) :
  main a1 env1 = main a2 env2 /\
  (snd (main a1 env1) = Exited 1 \/ snd (main a1 env1) = Exited 0) /\
  exists t,
    collect_fragments (source_dir env1)
      = (map Print t, Return (collected (source_dir env1))) /\
    fst (main a1 env1)
    = map Print
        ([Rule; Title; RuleBlank] ++ t
         ++ if is_nil (collected (source_dir env1)) then [ErrNoValid]
            else [Summary (List.length (collected (source_dir env1)));
                  ValidationComplete]).
Proof.
  assert (A : forall a n fs, validate a = true ->
            after_collect a n fs
            = (map Print (if is_nil fs then [ErrNoValid]
                          else [Summary (List.length fs); ValidationComplete]),
               Exited (if is_nil fs then 1 else 0))).
  { intros a n [|f fs] V; [reflexivity|].
    now rewrite after_collect_validate by (assumption || discriminate). }
  destruct (main_after_collect a1 env1) as (t1 & C1 & E1).
  destruct (main_after_collect a2 env2) as (t2 & C2 & E2).
  rewrite E1, E2, <- Hdir, !A by assumption. cbn [fst snd].
  rewrite <- Hdir, C1 in C2. injection C2 as Ht.
  split; [now rewrite !map_app, Ht|].
  split; [destruct (collected (source_dir env1)); cbn; tauto|].
  exists t1. split; [exact C1|]. now rewrite !map_app.
Qed.

Lemma validate_comes_first_example :
  main {| validate := true; dry_run := true |} mixed_ids
    = main {| validate := true; dry_run := false |}
           {| source_dir := source_dir mixed_ids; now := in_the_evening |} /\
  snd (main {| validate := true; dry_run := true |} mixed_ids) = Exited 0.
Proof.
  split.
  - apply (validate_comes_first {| validate := true; dry_run := true |}
             {| validate := true; dry_run := false |} mixed_ids
             {| source_dir := source_dir mixed_ids; now := in_the_evening |});
      reflexivity.
  - reflexivity.
Defined.

(** ** Fragments with the same sort key *)

(** X15: fragments that share a sort key come out in the order of
    their file names.  In a run that writes a profile of fragments
    with string ids, the entries of [templates] that have one and the
    same key (category rank, id) stand in the order in which the
    Collector loaded them, which is the ascending order of the names
    of their files: the Sorter is stable and the Collector sorts the
    candidates by name. *)
Theorem ties_follow_file_names (a : args) (env : environment)
    (entries : list entry) (content : string)
    (Hdir : source_dir env = Some entries)
    (Hids : Forall (fun f => string_id f = true) (collected (source_dir env)))
    (Hw : written (fst (main a env)) = Some content) :
  exists out,
    content = (json_dumps (generate_profile (now env) out) ++ newline)%string /\
    StronglySorted (fun e1 e2 => String.leb (fst e1) (fst e2) = true)
                   (json_files entries) /\
    (forall p : json -> bool,
       (forall f g, p f = true -> p g = true -> text_key f = text_key g) ->
       filter p out = filter p (accepted (json_files entries))).
Proof.
  destruct (main_written a env content Hw) as (out & Hs & -> & _).
  exists out. split; [reflexivity|]. split; [apply json_files_sorted|].
  intros p Hp. rewrite (sort_fragments_string_ids _ Hids) in Hs.
  injection Hs as <-. rewrite Hdir. cbn [collected].
  apply isort_filter. intros f g Hf Hg. unfold fragment_lt.
  rewrite (Hp f g Hf Hg). apply text_key_lt_irrefl.
Qed.

Lemma ties_follow_file_names_example :
  exists out,
    (json_dumps (generate_profile at_noon [second_x; first_x]) ++ newline)%string
    = (json_dumps (generate_profile at_noon out) ++ newline)%string /\
    StronglySorted (fun e1 e2 => String.leb (fst e1) (fst e2) = true)
                   (json_files [("b.json", Ok first_x); ("a.json", Ok second_x)])
    /\
    (forall p : json -> bool,
       (forall f g, p f = true -> p g = true -> text_key f = text_key g) ->
       filter p out
       = filter p (accepted (json_files [("b.json", Ok first_x);
                                         ("a.json", Ok second_x)]))).
Proof.
  apply (ties_follow_file_names generate
           {| source_dir := Some [("b.json", Ok first_x); ("a.json", Ok second_x)];
              now := at_noon |}
           [("b.json", Ok first_x); ("a.json", Ok second_x)]).
  - reflexivity.
  - vm_compute. repeat constructor.
  - reflexivity.
Defined.
